(** * A shallow embedding of the SPDY engine's flow control, stream limit,
      stream state and protocol-version strings.

    Sources embedded: [flow.go] (FlowControl, DefaultFlowControl, flowControl
    and the three AddFlowControl methods) and the package's common file
    (constants, streamLimit, StreamState, SupportedVersions, NpnStrings).

    Conventions.
    - A Go [uint32] or [int64] is a [Z]; every arithmetic operation of the
      source is followed by the wrap-around of its type ([Int.uint32],
      [Int.int64]), and conversions between the two are written out.
    - A [[]byte] is a [list byte]; a slice that may be [nil] is an [option].
    - Methods on a pointer receiver take the receiver's value and return the
      new one.  The mutexes of the source guard single field updates and are
      released on every path; the embedding is sequential and omits them, as
      it omits the calls to the package loggers.
    - Sending on the output channel appends to the list of frames sent so
      far; sending on a [nil] channel blocks for ever. *)

From Stdlib Require Import ZArith Lia.
From stdpp Require Import base numbers list strings gmap sorting pretty.

Open Scope Z_scope.

Abbreviation byte := Byte.byte.

(** ** Machine integers *)

Module Int.

Definition uint32 (z : Z) : Z := z mod 2 ^ 32.

Definition int64 (z : Z) : Z := (z + 2 ^ 63) mod 2 ^ 64 - 2 ^ 63.

Definition is_uint32 (z : Z) : Prop := 0 <= z < 2 ^ 32.

Definition is_int64 (z : Z) : Prop := - 2 ^ 63 <= z < 2 ^ 63.

(** [len(x)] of a slice, as a Go [int]. *)
Definition len {A : Type} (l : list A) : Z := Z.of_nat (length l).

End Int.

Import Int.

(** ** What a call can end in

    A call returns ([Done]), panics ([Panicked], with the runtime's message),
    blocks for ever on a [nil] channel ([Blocked]), or the embedding's loop
    counter runs out ([OutOfFuel], shown below never to happen). *)

Inductive outcome (A : Type) : Type :=
| Done (a : A)
| Panicked (msg : string)
| Blocked
| OutOfFuel.

Arguments Done {A} a.
Arguments Panicked {A} msg.
Arguments Blocked {A}.
Arguments OutOfFuel {A}.

Definition obind {A B : Type} (m : outcome A) (k : A -> outcome B) : outcome B :=
  match m with
  | Done a => k a
  | Panicked msg => Panicked msg
  | Blocked => Blocked
  | OutOfFuel => OutOfFuel
  end.

Notation "x <~ m ;; k" := (obind m (fun x => k))
  (at level 100, m at next level, right associativity, only parsing).

(** ** Constants of the package *)

Definition RST_STREAM_FLOW_CONTROL_ERROR : Z := 7.

Definition MAX_TRANSFER_WINDOW_SIZE : Z := 0x80000000.

(** ** streamLimit *)

Module Limit.

Record streamLimit : Type := { limit : Z; current : Z }.



Definition Limit (s : streamLimit) : Z := limit s.

(** [if s.current >= s.limit { return false }; s.current++; return true] *)
Definition Add (s : streamLimit) : streamLimit * bool :=
  if current s >=? limit s then (s, false)
  else ({| limit := limit s; current := uint32 (current s + 1) |}, true).

(** [s.current--] *)
Definition Close (s : streamLimit) : streamLimit :=
  {| limit := limit s; current := uint32 (current s - 1) |}.

(** [n] calls of [Add] in a row: the answers, in order, and the final state. *)
Fixpoint Adds (n : nat) (s : streamLimit) : streamLimit * list bool :=
  match n with
  | O => (s, [])
  | S n' => let '(s1, b) := Add s in
            let '(s2, bs) := Adds n' s1 in (s2, b :: bs)
  end.

End Limit.

(** ** StreamState *)

Module State.

Definition STATE_OPEN : Z := 0.
Definition STATE_HALF_CLOSED_HERE : Z := 1.
Definition STATE_HALF_CLOSED_THERE : Z := 2.
Definition STATE_CLOSED : Z := 3.

(** The struct's only data field is the [uint8] [s]. *)
Record StreamState : Type := { s : Z }.

Definition Open (st : StreamState) : bool := s st =? STATE_OPEN.

Definition Closed (st : StreamState) : bool := s st =? STATE_CLOSED.

Definition ClosedThere (st : StreamState) : bool :=
  (s st =? STATE_CLOSED) || (s st =? STATE_HALF_CLOSED_THERE).

Definition OpenThere (st : StreamState) : bool := negb (ClosedThere st).

Definition ClosedHere (st : StreamState) : bool :=
  (s st =? STATE_CLOSED) || (s st =? STATE_HALF_CLOSED_HERE).

Definition OpenHere (st : StreamState) : bool := negb (ClosedHere st).

Definition Close (st : StreamState) : StreamState := {| s := STATE_CLOSED |}.

Definition CloseHere (st : StreamState) : StreamState :=
  if s st =? STATE_OPEN then {| s := STATE_HALF_CLOSED_HERE |}
  else if s st =? STATE_HALF_CLOSED_THERE then {| s := STATE_CLOSED |}
  else st.

Definition CloseThere (st : StreamState) : StreamState :=
  if s st =? STATE_OPEN then {| s := STATE_HALF_CLOSED_THERE |}
  else if s st =? STATE_HALF_CLOSED_HERE then {| s := STATE_CLOSED |}
  else st.

(** The three mutating methods, as the alphabet of call sequences. *)
Inductive call : Type := CallClose | CallCloseHere | CallCloseThere.

Definition apply_call (st : StreamState) (c : call) : StreamState :=
  match c with
  | CallClose => Close st
  | CallCloseHere => CloseHere st
  | CallCloseThere => CloseThere st
  end.

Definition run (cs : list call) (st : StreamState) : StreamState :=
  fold_left apply_call cs st.

End State.

(** ** Supported versions and NPN strings *)

Module Version.

(** The package-level [supportedVersions] map, a set of [uint16] keys, is
    passed explicitly; this is its initial value. *)
Definition supportedVersions : gset Z := {[ 2; 3 ]}.

Definition maxVersion : Z := 3.
Definition minVersion : Z := 2.

(** The order of [sort.Reverse(sort.IntSlice(s))]. *)
Definition int_desc (x y : Z) : Prop := y <= x.

#[global] Instance int_desc_dec : RelDecision int_desc.
Proof. intros x y. unfold int_desc. apply _. Defined.

(** The keys are collected in the map's iteration order, which Go leaves
    unspecified, and sorted; [SupportedVersions_from] takes the collected
    slice, [SupportedVersions] collects in the order of [elements]. *)
Definition SupportedVersions_from (collected : list Z) : list Z :=
  merge_sort int_desc collected.

Definition SupportedVersions (m : gset Z) : list Z :=
  SupportedVersions_from (elements m).

(** [fmt.Sprintf("spdy/%d", v)] *)
Definition spdy_token (v : Z) : string := "spdy/" +:+ pretty v.

Definition NpnStrings (m : gset Z) : list string :=
  (spdy_token <$> SupportedVersions m) ++ ["http/1.1"].

Definition SupportedVersion (m : gset Z) (v : Z) : bool := bool_decide (v ∈ m).

Definition EnableSpdyVersion (v : Z) (m : gset Z) : gset Z * option string :=
  if v =? 0 then (m, Some "Error: version 0 is invalid.")
  else if v <? minVersion then (m, Some "Error: SPDY version too old.")
  else if v >? maxVersion then (m, Some "Error: SPDY version too new.")
  else ({[ v ]} ∪ m, None).

Definition DisableSpdyVersion (v : Z) (m : gset Z) : gset Z * option string :=
  if v =? 0 then (m, Some "Error: version 0 is invalid.")
  else if v <? minVersion then (m, Some "Error: SPDY version too old.")
  else if v >? maxVersion then (m, Some "Error: SPDY version too new.")
  else (m ∖ {[ v ]}, None).

End Version.

(** ** Flow control *)

Module Flow.

(** Modelled from the spec: the frame structs [dataFrameV3],
    [rstStreamFrameV3] and [windowUpdateFrameV3] are declared outside the
    embedded sources; each constructor carries the fields that flow control
    assigns, the spec's DATA, RST_STREAM and WINDOW_UPDATE frames. *)
Inductive Frame : Type :=
| dataFrameV3 (StreamID : Z) (Data : list byte)
| rstStreamFrameV3 (StreamID : Z) (Status : Z)
| windowUpdateFrameV3 (StreamID : Z) (DeltaWindowSize : Z).

(** A Go [(T, error)] pair of which exactly one side is meaningful. *)
Inductive result (A : Type) : Type :=
| Ok (a : A)
| Err (msg : string).

Arguments Ok {A} a.
Arguments Err {A} msg.

(** Modelled from the spec: the [Conn] and [Stream] interfaces are declared
    outside the embedded sources.  Flow control calls only
    [Conn.InitialWindowSize() (uint32, error)] and [Stream.Conn()], whose
    answers are the fields below; they are taken to stay the same during one
    call of a flow-control method. *)
Record Conn : Type := { Conn_InitialWindowSize : result Z }.

Record Stream : Type := { Stream_Conn : option Conn }.

(** The [FlowControl] interface: a value of it is its two methods, closed
    over the receiver. *)
Record FlowControl : Type := {
  InitialWindowSize : Z;
  ReceiveData : Z -> Z -> Z -> Z
}.

Definition DefaultFlowControl_InitialWindowSize (f : Z) : Z := uint32 f.

(** [if newWindowSize < int64(initialWindowSize)/2
       { return uint32(int64(initialWindowSize) - newWindowSize) }
     return 0] *)
Definition DefaultFlowControl_ReceiveData
    (f : Z) (streamID : Z) (initialWindowSize : Z) (newWindowSize : Z) : Z :=
  if newWindowSize <? Z.quot (int64 initialWindowSize) 2
  then uint32 (int64 (int64 initialWindowSize - newWindowSize))
  else 0.

Definition DefaultFlowControl (f : Z) : FlowControl :=
  {| InitialWindowSize := DefaultFlowControl_InitialWindowSize f;
     ReceiveData := DefaultFlowControl_ReceiveData f |}.

(** The [flowControl] struct.  [stream], [output], [buffer] and the
    interface value [flowControl'] can be [nil]. *)
Record flowControl : Type := {
  stream : option Stream;
  streamID : Z;
  output : option (list Frame);
  initialWindow : Z;
  transferWindow : Z;
  sent : Z;
  buffer : option (list (list byte));
  constrained : bool;
  initialWindowThere : Z;
  transferWindowThere : Z;
  flowControl' : option FlowControl
}.

(** [new(flowControl)] *)
Definition new_flowControl : flowControl :=
  {| stream := None; streamID := 0; output := None; initialWindow := 0;
     transferWindow := 0; sent := 0; buffer := None; constrained := false;
     initialWindowThere := 0; transferWindowThere := 0; flowControl' := None |}.

Definition set_stream (v : option Stream) (f : flowControl) : flowControl :=
  {| stream := v; streamID := streamID f; output := output f;
     initialWindow := initialWindow f; transferWindow := transferWindow f;
     sent := sent f; buffer := buffer f; constrained := constrained f;
     initialWindowThere := initialWindowThere f;
     transferWindowThere := transferWindowThere f;
     flowControl' := flowControl' f |}.

Definition set_streamID (v : Z) (f : flowControl) : flowControl :=
  {| stream := stream f; streamID := v; output := output f;
     initialWindow := initialWindow f; transferWindow := transferWindow f;
     sent := sent f; buffer := buffer f; constrained := constrained f;
     initialWindowThere := initialWindowThere f;
     transferWindowThere := transferWindowThere f;
     flowControl' := flowControl' f |}.

Definition set_output (v : option (list Frame)) (f : flowControl) : flowControl :=
  {| stream := stream f; streamID := streamID f; output := v;
     initialWindow := initialWindow f; transferWindow := transferWindow f;
     sent := sent f; buffer := buffer f; constrained := constrained f;
     initialWindowThere := initialWindowThere f;
     transferWindowThere := transferWindowThere f;
     flowControl' := flowControl' f |}.

Definition set_initialWindow (v : Z) (f : flowControl) : flowControl :=
  {| stream := stream f; streamID := streamID f; output := output f;
     initialWindow := v; transferWindow := transferWindow f;
     sent := sent f; buffer := buffer f; constrained := constrained f;
     initialWindowThere := initialWindowThere f;
     transferWindowThere := transferWindowThere f;
     flowControl' := flowControl' f |}.

Definition set_transferWindow (v : Z) (f : flowControl) : flowControl :=
  {| stream := stream f; streamID := streamID f; output := output f;
     initialWindow := initialWindow f; transferWindow := v;
     sent := sent f; buffer := buffer f; constrained := constrained f;
     initialWindowThere := initialWindowThere f;
     transferWindowThere := transferWindowThere f;
     flowControl' := flowControl' f |}.

Definition set_sent (v : Z) (f : flowControl) : flowControl :=
  {| stream := stream f; streamID := streamID f; output := output f;
     initialWindow := initialWindow f; transferWindow := transferWindow f;
     sent := v; buffer := buffer f; constrained := constrained f;
     initialWindowThere := initialWindowThere f;
     transferWindowThere := transferWindowThere f;
     flowControl' := flowControl' f |}.

Definition set_buffer (v : option (list (list byte))) (f : flowControl) : flowControl :=
  {| stream := stream f; streamID := streamID f; output := output f;
     initialWindow := initialWindow f; transferWindow := transferWindow f;
     sent := sent f; buffer := v; constrained := constrained f;
     initialWindowThere := initialWindowThere f;
     transferWindowThere := transferWindowThere f;
     flowControl' := flowControl' f |}.

Definition set_constrained (v : bool) (f : flowControl) : flowControl :=
  {| stream := stream f; streamID := streamID f; output := output f;
     initialWindow := initialWindow f; transferWindow := transferWindow f;
     sent := sent f; buffer := buffer f; constrained := v;
     initialWindowThere := initialWindowThere f;
     transferWindowThere := transferWindowThere f;
     flowControl' := flowControl' f |}.

Definition set_initialWindowThere (v : Z) (f : flowControl) : flowControl :=
  {| stream := stream f; streamID := streamID f; output := output f;
     initialWindow := initialWindow f; transferWindow := transferWindow f;
     sent := sent f; buffer := buffer f; constrained := constrained f;
     initialWindowThere := v;
     transferWindowThere := transferWindowThere f;
     flowControl' := flowControl' f |}.

Definition set_transferWindowThere (v : Z) (f : flowControl) : flowControl :=
  {| stream := stream f; streamID := streamID f; output := output f;
     initialWindow := initialWindow f; transferWindow := transferWindow f;
     sent := sent f; buffer := buffer f; constrained := constrained f;
     initialWindowThere := initialWindowThere f;
     transferWindowThere := v;
     flowControl' := flowControl' f |}.

Definition set_flowControl' (v : option FlowControl) (f : flowControl) : flowControl :=
  {| stream := stream f; streamID := streamID f; output := output f;
     initialWindow := initialWindow f; transferWindow := transferWindow f;
     sent := sent f; buffer := buffer f; constrained := constrained f;
     initialWindowThere := initialWindowThere f;
     transferWindowThere := transferWindowThere f;
     flowControl' := v |}.

(** [f.output <- fr] *)
Definition send (fr : Frame) (f : flowControl) : outcome flowControl :=
  match output f with
  | None => Blocked
  | Some sent_so_far => Done (set_output (Some (sent_so_far ++ [fr])) f)
  end.

(** The bytes waiting in the buffer, in buffering order. *)
Definition buffered (f : flowControl) : list byte :=
  concat (default [] (buffer f)).

(** The payloads of the DATA frames among [frs], in sending order. *)
Definition data_sent (frs : list Frame) : list byte :=
  concat (omap (fun fr => match fr with
                          | dataFrameV3 _ d => Some d
                          | _ => None
                          end) frs).

(** [CheckInitialWindow]: adopt the connection's initial window if it
    changed since the flow control was set up. *)
Definition CheckInitialWindow (f : flowControl) : flowControl :=
  match stream f with
  | None => f
  | Some st =>
    match Stream_Conn st with
    | None => f
    | Some c =>
      match Conn_InitialWindowSize c with
      | Err _ => f
      | Ok newWindow =>
        if initialWindow f =? newWindow then f
        else
          let f1 :=
            if initialWindow f >? newWindow
            then set_transferWindow (int64 (uint32 (newWindow - sent f))) f
            else if initialWindow f <? newWindow
            then set_transferWindow
                   (int64 (transferWindow f
                           + int64 (uint32 (newWindow - initialWindow f)))) f
            else f in
          let f2 :=
            if transferWindow f1 <=? 0 then set_constrained true f1 else f1 in
          set_initialWindow newWindow f2
      end
    end
  end.

Definition Close (f : flowControl) : flowControl :=
  set_stream None (set_buffer None f).

(** The loop of [Flush], from the state at the loop test:
    [for i := 0; i < len(f.buffer); i++ { ... }].
    The state is the index [i], the slice [f.buffer], [out] and [left].
    [f.buffer = f.buffer[1:]] drops the slice's first element whatever [i]
    is; [f.buffer[i] = f.buffer[i][left:]] overwrites element [i].
    One unit of [fuel] is spent per iteration; [None] is running out. *)
Fixpoint Flush_loop (fuel : nat) (i : nat) (buf : list (list byte))
    (out : list byte) (left : Z) : option (list (list byte) * list byte * Z) :=
  match buf !! i with
  | None => Some (buf, out, left)
  | Some chunk =>
    match fuel with
    | O => None
    | S fuel' =>
      let l := len chunk in
      if l <=? left then
        let out1 := out ++ chunk in
        let left1 := int64 (left - l) in
        let buf1 := drop 1 buf in
        if left1 =? 0 then Some (buf1, out1, left1)
        else Flush_loop fuel' (S i) buf1 out1 left1
      else
        let out1 := out ++ take (Z.to_nat left) chunk in
        let buf1 := <[ i := drop (Z.to_nat left) chunk ]> buf in
        Some (buf1, out1, 0)
    end
  end.

(** [Flush].  [make([]byte, 0, f.transferWindow)] panics on a negative
    capacity; a capacity that is not negative is taken to be allocated. *)
Definition Flush (f : flowControl) : outcome flowControl :=
  let f := CheckInitialWindow f in
  if negb (constrained f) || (transferWindow f =? 0) then Done f
  else if transferWindow f <? 0
  then Panicked "runtime error: makeslice: cap out of range"
  else
    let buf := default [] (buffer f) in
    match Flush_loop (length buf) 0 buf [] (transferWindow f) with
    | None => OutOfFuel
    | Some (buf1, out, _) =>
      let f := set_buffer (match buffer f with
                           | None => None
                           | Some _ => Some buf1
                           end) f in
      let f := set_transferWindow (int64 (transferWindow f - len out)) f in
      let f := if transferWindow f >? 0 then set_constrained false f else f in
      send (dataFrameV3 (streamID f) out) f
    end.

Definition Paused (f : flowControl) : flowControl * bool :=
  let f := CheckInitialWindow f in (f, constrained f).

(** [Receive].  Calling a method of the [nil] interface value panics. *)
Definition Receive (data : list byte) (f : flowControl) : outcome flowControl :=
  f <~ (if transferWindowThere f <? 0
        then send (rstStreamFrameV3 (streamID f) RST_STREAM_FLOW_CONTROL_ERROR) f
        else Done f) ;;
  let f := set_transferWindowThere (int64 (transferWindowThere f - len data)) f in
  match flowControl' f with
  | None => Panicked "runtime error: invalid memory address or nil pointer dereference"
  | Some fc =>
    let delta := ReceiveData fc (streamID f) (initialWindowThere f)
                             (transferWindowThere f) in
    if delta =? 0 then Done f
    else
      f <~ send (windowUpdateFrameV3 (streamID f) delta) f ;;
      Done (set_transferWindowThere
              (int64 (transferWindowThere f + int64 delta)) f)
  end.

Definition UpdateWindow_error : string :=
  "Error: WINDOW_UPDATE delta window size overflows transfer window size.".

(** [UpdateWindow]: the state and the returned [error] ([None] is [nil]). *)
Definition UpdateWindow (deltaWindowSize : Z) (f : flowControl)
    : outcome (flowControl * option string) :=
  if int64 (int64 deltaWindowSize + transferWindow f) >? MAX_TRANSFER_WINDOW_SIZE
  then Done (f, Some UpdateWindow_error)
  else
    let f := set_transferWindow
               (int64 (transferWindow f + int64 deltaWindowSize)) f in
    f <~ Flush f ;;
    Done (f, None).

(** The [window] that [Write] reads under the lock: [0] if [transferWindow]
    is negative, else its conversion to [uint32]. *)
Definition window_of (f : flowControl) : Z :=
  if transferWindow f <? 0 then 0 else uint32 (transferWindow f).

(** [Write]: the state and the returned [(int, error)]. *)
Definition Write (data : list byte) (f : flowControl)
    : outcome (flowControl * (Z * option string)) :=
  let l := len data in
  if l =? 0 then Done (f, (0, None))
  else
    match buffer f, stream f with
    | None, _ | _, None => Done (f, (0, Some "Error: Stream closed."))
    | Some _, Some _ =>
      let f := CheckInitialWindow f in
      f <~ (if constrained f then Flush f else Done f) ;;
      let window := window_of f in
      let '(f, data) :=
        if uint32 (len data) >? window then
          let f := set_buffer
                     (Some (default [] (buffer f) ++ [drop (Z.to_nat window) data])) f in
          let f := set_sent (uint32 (sent f + window)) f in
          let f := set_transferWindow (int64 (transferWindow f - int64 window)) f in
          let f := set_constrained true f in
          (f, take (Z.to_nat window) data)
        else (f, data) in
      if len data =? 0 then Done (f, (l, None))
      else
        f <~ send (dataFrameV3 (streamID f) data) f ;;
        Done (f, (l, None))
    end.

(** Modelled from the spec: the structs [serverStreamV3], [pushStreamV3] and
    [clientStreamV3] are declared outside the embedded sources; the three
    share this record of the fields that [AddFlowControl] reads and writes.
    [conn] is taken not to be [nil], and the stream's [Conn()] to return it. *)
Record streamV3 : Type := {
  conn : Conn;
  stream_streamID : Z;
  stream_output : option (list Frame);
  flow : option flowControl
}.

Definition set_flow (v : option flowControl) (s : streamV3) : streamV3 :=
  {| conn := conn s; stream_streamID := stream_streamID s;
     stream_output := stream_output s; flow := v |}.

(** [s.flow.stream = s] *)
Definition as_Stream (s : streamV3) : Stream :=
  {| Stream_Conn := Some (conn s) |}.

Definition serverStreamV3_AddFlowControl (f : FlowControl) (s : streamV3) : streamV3 :=
  match flow s with
  | Some _ => s
  | None =>
    let fl := new_flowControl in
    match Conn_InitialWindowSize (conn s) with
    | Err _ => set_flow (Some fl) s
    | Ok initialWindow_ =>
      let fl := set_streamID (stream_streamID s) fl in
      let fl := set_output (stream_output s) fl in
      let fl := set_buffer (Some []) fl in
      let fl := set_initialWindow initialWindow_ fl in
      let fl := set_transferWindow (int64 initialWindow_) fl in
      let fl := set_stream (Some (as_Stream s)) fl in
      let fl := set_flowControl' (Some f) fl in
      let fl := set_initialWindowThere (InitialWindowSize f) fl in
      let fl := set_transferWindowThere (int64 (initialWindowThere fl)) fl in
      set_flow (Some fl) s
    end
  end.

Definition pushStreamV3_AddFlowControl (f : FlowControl) (p : streamV3) : streamV3 :=
  match flow p with
  | Some _ => p
  | None =>
    let fl := new_flowControl in
    match Conn_InitialWindowSize (conn p) with
    | Err _ => set_flow (Some fl) p
    | Ok initialWindow_ =>
      let fl := set_streamID (stream_streamID p) fl in
      let fl := set_output (stream_output p) fl in
      let fl := set_buffer (Some []) fl in
      let fl := set_initialWindow initialWindow_ fl in
      let fl := set_transferWindow (int64 initialWindow_) fl in
      let fl := set_stream (Some (as_Stream p)) fl in
      let fl := set_flowControl' (Some f) fl in
      let fl := set_initialWindowThere (InitialWindowSize f) fl in
      let fl := set_transferWindowThere (int64 (transferWindowThere fl)) fl in
      set_flow (Some fl) p
    end
  end.

Definition clientStreamV3_AddFlowControl (f : FlowControl) (r : streamV3) : streamV3 :=
  match flow r with
  | Some _ => r
  | None =>
    let fl := new_flowControl in
    match Conn_InitialWindowSize (conn r) with
    | Err _ => set_flow (Some fl) r
    | Ok initialWindow_ =>
      let fl := set_streamID (stream_streamID r) fl in
      let fl := set_output (stream_output r) fl in
      let fl := set_buffer (Some []) fl in
      let fl := set_initialWindow initialWindow_ fl in
      let fl := set_transferWindow (int64 initialWindow_) fl in
      let fl := set_stream (Some (as_Stream r)) fl in
      let fl := set_flowControl' (Some f) fl in
      let fl := set_initialWindowThere (InitialWindowSize f) fl in
      let fl := set_transferWindowThere (int64 (initialWindowThere fl)) fl in
      set_flow (Some fl) r
    end
  end.

End Flow.

(** ** Sample connections, streams and policies *)

Module Sample.

Import Flow.

(** A connection whose initial window is [w]. *)
Definition conn_with (w : Z) : Conn := {| Conn_InitialWindowSize := Ok w |}.

(** Stream 1 of such a connection, before [AddFlowControl]. *)
Definition fresh_stream (w : Z) : streamV3 :=
  {| conn := conn_with w; stream_streamID := 1;
     stream_output := Some []; flow := None |}.

(** The flow control a stream ends up with ([new(flowControl)] if none). *)
Definition flow_of (s : streamV3) : flowControl := default new_flowControl (flow s).

(** A policy that regrows the window by [g] bytes after every read. *)
Definition fixed_grant (g : Z) : FlowControl :=
  {| InitialWindowSize := 8; ReceiveData := fun _ _ _ => g |}.

(** Stream 1 on a connection of initial window 65536, constrained, with
    [w] bytes of window left and [chunks] waiting in the buffer. *)
Definition stalled (w : Z) (chunks : list (list byte)) : flowControl :=
  {| stream := Some {| Stream_Conn := Some (conn_with 65536) |};
     streamID := 1; output := Some [];
     initialWindow := 65536; transferWindow := w; sent := uint32 (65536 - w);
     buffer := Some chunks; constrained := true;
     initialWindowThere := 65536; transferWindowThere := 65536;
     flowControl' := None |}.

(** Stream 1 whose receive window stands at [w], under [fixed_grant 4]. *)
Definition receiving (w : Z) : flowControl :=
  {| stream := Some {| Stream_Conn := Some (conn_with 65536) |};
     streamID := 1; output := Some [];
     initialWindow := 65536; transferWindow := 65536; sent := 0;
     buffer := Some []; constrained := false;
     initialWindowThere := 8; transferWindowThere := w;
     flowControl' := Some (fixed_grant 4) |}.

(** The state after a call that returned; [new(flowControl)] otherwise. *)
Definition state_after (r : outcome flowControl) : flowControl :=
  match r with Done f => f | _ => new_flowControl end.

(** A stream on a connection of initial window 4 writes ten bytes, then
    two, then one; the peer then grants 20 bytes. *)
Definition after_three_writes : outcome flowControl :=
  let f0 := flow_of (serverStreamV3_AddFlowControl
                       (DefaultFlowControl 65536) (fresh_stream 4)) in
  r1 <~ Write [Byte.x30; Byte.x31; Byte.x32; Byte.x33; Byte.x34;
               Byte.x35; Byte.x36; Byte.x37; Byte.x38; Byte.x39] f0 ;;
  r2 <~ Write [Byte.x61; Byte.x62] r1.1 ;;
  r3 <~ Write [Byte.x63] r2.1 ;;
  Done r3.1.

Definition after_window_update : outcome flowControl :=
  f <~ after_three_writes ;;
  r <~ UpdateWindow 20 f ;;
  Done r.1.

End Sample.

(** ** RST_STREAM status codes *)

Module Status.

Definition RST_STREAM_PROTOCOL_ERROR : Z := 1.
Definition RST_STREAM_INVALID_STREAM : Z := 2.
Definition RST_STREAM_REFUSED_STREAM : Z := 3.
Definition RST_STREAM_UNSUPPORTED_VERSION : Z := 4.
Definition RST_STREAM_CANCEL : Z := 5.
Definition RST_STREAM_INTERNAL_ERROR : Z := 6.
Definition RST_STREAM_STREAM_IN_USE : Z := 8.
Definition RST_STREAM_STREAM_ALREADY_CLOSED : Z := 9.
Definition RST_STREAM_INVALID_CREDENTIALS : Z := 10.
Definition RST_STREAM_FRAME_TOO_LARGE : Z := 11.

(** The package-level [map[int]string]. *)
Definition statusCodeText : gmap Z string :=
  <[ RST_STREAM_PROTOCOL_ERROR := "PROTOCOL_ERROR" ]>
  (<[ RST_STREAM_INVALID_STREAM := "INVALID_STREAM" ]>
  (<[ RST_STREAM_REFUSED_STREAM := "REFUSED_STREAM" ]>
  (<[ RST_STREAM_UNSUPPORTED_VERSION := "UNSUPPORTED_VERSION" ]>
  (<[ RST_STREAM_CANCEL := "CANCEL" ]>
  (<[ RST_STREAM_INTERNAL_ERROR := "INTERNAL_ERROR" ]>
  (<[ RST_STREAM_FLOW_CONTROL_ERROR := "FLOW_CONTROL_ERROR" ]>
  (<[ RST_STREAM_STREAM_IN_USE := "STREAM_IN_USE" ]>
  (<[ RST_STREAM_STREAM_ALREADY_CLOSED := "STREAM_ALREADY_CLOSED" ]>
  (<[ RST_STREAM_INVALID_CREDENTIALS := "INVALID_CREDENTIALS" ]>
  (<[ RST_STREAM_FRAME_TOO_LARGE := "FRAME_TOO_LARGE" ]> ∅)))))))))).

(** [statusCodeText[code]]: a missing key reads as the empty string. *)
Definition StatusCodeText (code : Z) : string :=
  default EmptyString (statusCodeText !! code).

Definition StatusCodeIsFatal (code : Z) : bool :=
  if code =? RST_STREAM_PROTOCOL_ERROR then true
  else if code =? RST_STREAM_INTERNAL_ERROR then true
  else if code =? RST_STREAM_FRAME_TOO_LARGE then true
  else if code =? RST_STREAM_UNSUPPORTED_VERSION then true
  else false.

End Status.

(** ** The protocols AddSPDY advertises *)

Module Server.

(** [strings.Contains(s, substr)] *)
Fixpoint Contains (s substr : string) : bool :=
  String.prefix substr s
  || match s with
     | EmptyString => false
     | String _ s' => Contains s' substr
     end.

(** The test [AddSPDY] keeps an already advertised protocol by:
    [!strings.Contains(other, "spdy/") && !strings.Contains(other, "http/")]. *)
Definition is_other (other : string) : bool :=
  negb (Contains other "spdy/") && negb (Contains other "http/").

(** What [AddSPDY] leaves in [srv.TLSConfig.NextProtos], for a server that
    is not [nil].  [npnStrings] is the slice returned by [npn()], a function
    declared outside the embedded sources and taken as a parameter;
    [NextProtos] is the field before the call, [None] if it, or
    [srv.TLSConfig], is [nil].  The handlers that [AddSPDY] also registers
    in [srv.TLSNextProto] are not part of this. *)
Definition AddSPDY_NextProtos (npnStrings : list string)
    (NextProtos : option (list string)) : option (list string) :=
  if len npnStrings <=? 1 then NextProtos
  else
    match NextProtos with
    | None => Some npnStrings
    | Some old =>
      let others := List.filter is_other old in
      Some (take (length npnStrings - 1) npnStrings ++ others ++ ["http/1.1"])
    end.

End Server.

(** ** Notions used to state what StreamState does *)

Module StateView.

Import State.

(** The states the constants name. *)
Definition named (st : StreamState) : Prop := 0 <= s st <= 3.

End StateView.

(** ** Notions used to state what flow control does *)

Module FlowView.

Import Flow.

(** The answer [CheckInitialWindow] gets from the connection, if it gets
    one: [f.stream] and its [Conn()] are not [nil] and
    [InitialWindowSize()] returns no error. *)
Definition conn_window (f : flowControl) : option Z :=
  match stream f with
  | None => None
  | Some st =>
    match Stream_Conn st with
    | None => None
    | Some c =>
      match Conn_InitialWindowSize c with
      | Ok w => Some w
      | Err _ => None
      end
    end
  end.

(** The flow control has already taken over the connection's current
    initial window (or cannot read one). *)
Definition settled (f : flowControl) : Prop :=
  forall w, conn_window f = Some w -> initialWindow f = w.

(** The error [Write] returns on a closed stream. *)
Definition Stream_closed_error : string := "Error: Stream closed.".

(** The stream a frame is addressed to. *)
Definition frame_stream (fr : Frame) : Z :=
  match fr with
  | dataFrameV3 id _ => id
  | rstStreamFrameV3 id _ => id
  | windowUpdateFrameV3 id _ => id
  end.

(** From [f] with the frames [q] sent so far to [f']: only DATA frames of
    the stream's own id were sent, and the stream id and the receive window
    are as they were. *)
Definition sends_data (q : list Frame) (f f' : flowControl) : Prop :=
  exists frs,
    output f' = Some (q ++ frs) /\
    Forall (fun fr => exists d, fr = dataFrameV3 (streamID f) d) frs /\
    streamID f' = streamID f /\
    transferWindowThere f' = transferWindowThere f.

(** The total of the deltas of the WINDOW_UPDATE frames among [frs]. *)
Definition window_updates (frs : list Frame) : Z :=
  foldr (fun fr acc => match fr with
                       | windowUpdateFrameV3 _ d => d + acc
                       | _ => acc
                       end) 0 frs.

(** The number of RST_STREAM frames among [frs]. *)
Definition resets (frs : list Frame) : nat :=
  foldr (fun fr n => match fr with
                     | rstStreamFrameV3 _ _ => S n
                     | _ => n
                     end) 0%nat frs.

End FlowView.

(** * Properties *)

(** ** Machine integers *)

Lemma uint32_id (z : Z) : is_uint32 z -> uint32 z = z.
Proof. unfold is_uint32, uint32. intros H. apply Z.mod_small. lia. Qed.

Lemma int64_id (z : Z) : is_int64 z -> int64 z = z.
Proof.
  unfold is_int64, int64. intros H.
  rewrite Z.mod_small by lia. lia.
Qed.

Lemma uint32_range (z : Z) : is_uint32 (uint32 z).
Proof. unfold is_uint32, uint32. apply Z.mod_pos_bound. lia. Qed.

Lemma int64_range (z : Z) : is_int64 (int64 z).
Proof.
  unfold is_int64, int64.
  pose proof (Z.mod_pos_bound (z + 2 ^ 63) (2 ^ 64)). lia.
Qed.

Lemma uint32_is_int64 (z : Z) : is_uint32 z -> is_int64 z.
Proof. unfold is_uint32, is_int64. lia. Qed.

(** Converting an [int64] to [uint32] keeps the value modulo [2^32]. *)
Lemma uint32_int64 (z : Z) : uint32 (int64 z) = z mod 2 ^ 32.
Proof.
  unfold uint32, int64.
  pose proof (Z.div_mod (z + 2 ^ 63) (2 ^ 64)) as H.
  replace ((z + 2 ^ 63) mod 2 ^ 64 - 2 ^ 63)
    with (z + (- ((z + 2 ^ 63) / 2 ^ 64) * 2 ^ 32) * 2 ^ 32) by lia.
  apply Z_mod_plus_full.
Qed.

(** ** streamLimit *)

Section StreamLimit.

Import Limit.

Lemma Add_full (s : streamLimit) :
  limit s <= current s -> Add s = (s, false).
Proof.
  intros H. unfold Add.
  destruct (Z.geb_spec (current s) (limit s)) as [_ | Hlt]; [reflexivity | lia].
Qed.

Lemma Add_room (s : streamLimit) :
  is_uint32 (limit s) -> 0 <= current s < limit s ->
  Add s = ({| limit := limit s; current := current s + 1 |}, true).
Proof.
  intros Hl Hc. unfold Add.
  destruct (Z.geb_spec (current s) (limit s)) as [Hge | _]; [lia |].
  rewrite uint32_id; [reflexivity |]. unfold is_uint32 in *. lia.
Qed.

Lemma Add_limit (s : streamLimit) : limit (Add s).1 = limit s.
Proof. unfold Add. destruct (current s >=? limit s); reflexivity. Qed.

Lemma Add_invariant (s : streamLimit) :
  is_uint32 (current s) -> is_uint32 (limit s) ->
  current s <= limit s ->
  is_uint32 (current (Add s).1) /\ current (Add s).1 <= limit (Add s).1.
Proof.
  intros Hc Hl Hinv.
  destruct (Z_lt_le_dec (current s) (limit s)) as [Hlt | Hge].
  - rewrite Add_room by (unfold is_uint32 in *; lia).
    unfold is_uint32 in *. simpl. lia.
  - rewrite Add_full by lia. simpl. auto.
Qed.

Lemma Adds_invariant (n : nat) : forall s : streamLimit,
  is_uint32 (current s) -> is_uint32 (limit s) ->
  current s <= limit s ->
  current (Adds n s).1 <= limit (Adds n s).1.
Proof.
  induction n as [| n IH]; intros s Hc Hl Hinv; simpl.
  - exact Hinv.
  - destruct (Add_invariant s Hc Hl Hinv) as [Hc1 Hinv1].
    pose proof (Add_limit s) as Hl1.
    destruct (Add s) as [s1 b]. simpl in *.
    assert (Hl1' : is_uint32 (limit s1)) by (rewrite Hl1; exact Hl).
    specialize (IH s1 Hc1 Hl1' Hinv1).
    destruct (Adds n s1) as [s2 bs]. exact IH.
Qed.

Lemma Adds_full (n : nat) (s : streamLimit) :
  limit s <= current s -> Adds n s = (s, replicate n false).
Proof.
  intros H. induction n as [| n IH]; simpl.
  - reflexivity.
  - rewrite (Add_full s H), IH. reflexivity.
Qed.

(** C7.  [Add] refuses, leaving the counter as it is, whenever
    [current >= limit]; otherwise it adds exactly one and admits; so
    [current <= limit] is kept by [Add], and by any number of [Add]s. *)
Theorem streamLimit_Add_admission (s : streamLimit) :
  is_uint32 (current s) -> is_uint32 (limit s) ->
  (current s >= limit s -> Add s = (s, false)) /\
  (current s < limit s ->
     Add s = ({| limit := limit s; current := current s + 1 |}, true)) /\
  (current s <= limit s -> current (Add s).1 <= limit (Add s).1) /\
  (current s <= limit s ->
     forall n : nat, current (Adds n s).1 <= limit (Adds n s).1).
Proof.
  intros Hc Hl. repeat split.
  - intros H. apply Add_full. lia.
  - intros H. apply Add_room; [exact Hl |]. unfold is_uint32 in Hc. lia.
  - intros H. apply (Add_invariant s Hc Hl H).
  - intros H n. apply (Adds_invariant n s Hc Hl H).
Qed.

Lemma streamLimit_Add_admission_witness :
  Add {| limit := 2; current := 2 |} = ({| limit := 2; current := 2 |}, false) /\
  Add {| limit := 2; current := 1 |} = ({| limit := 2; current := 2 |}, true) /\
  current (Adds 5 {| limit := 2; current := 0 |}).1 <= 2.
Proof.
  assert (H32 : forall z, 0 <= z < 3 -> is_uint32 z)
    by (unfold is_uint32; intros; lia).
  split; [| split].
  - apply (streamLimit_Add_admission {| limit := 2; current := 2 |});
      simpl; try apply H32; lia.
  - apply (streamLimit_Add_admission {| limit := 2; current := 1 |});
      simpl; try apply H32; lia.
  - apply (streamLimit_Add_admission {| limit := 2; current := 0 |});
      simpl; try apply H32; lia.
Defined.



End StreamLimit.

(** ** StreamState *)

Section StreamStateMachine.

Import State.

Lemma CloseHere_closed (st : StreamState) :
  Closed st = true -> Closed (CloseHere st) = true.
Proof.
  unfold Closed, CloseHere, STATE_CLOSED, STATE_OPEN, STATE_HALF_CLOSED_THERE.
  intros H. apply Z.eqb_eq in H. rewrite H. simpl. rewrite H. reflexivity.
Qed.

Lemma CloseThere_closed (st : StreamState) :
  Closed st = true -> Closed (CloseThere st) = true.
Proof.
  unfold Closed, CloseThere, STATE_CLOSED, STATE_OPEN, STATE_HALF_CLOSED_HERE.
  intros H. apply Z.eqb_eq in H. rewrite H. simpl. rewrite H. reflexivity.
Qed.

Lemma apply_call_closed (c : call) (st : StreamState) :
  Closed st = true -> Closed (apply_call st c) = true.
Proof.
  destruct c; simpl.
  - intros _. reflexivity.
  - apply CloseHere_closed.
  - apply CloseThere_closed.
Qed.

Lemma run_closed (cs : list call) : forall st : StreamState,
  Closed st = true -> Closed (run cs st) = true.
Proof.
  induction cs as [| c cs IH]; intros st H; simpl.
  - exact H.
  - apply IH, apply_call_closed, H.
Qed.

Lemma run_app (cs1 cs2 : list call) (st : StreamState) :
  run (cs1 ++ cs2) st = run cs2 (run cs1 st).
Proof. unfold run. apply fold_left_app. Qed.

(** C6.  [CloseHere] takes OPEN to HALF_CLOSED_HERE and HALF_CLOSED_THERE to
    CLOSED and changes no other state; [CloseThere] takes OPEN to
    HALF_CLOSED_THERE and HALF_CLOSED_HERE to CLOSED and changes no other
    state; [Close] always gives CLOSED; and along every sequence of the three
    calls a stream that is CLOSED at some point is CLOSED ever after. *)
Theorem StreamState_transitions (st : StreamState) (cs1 cs2 : list call) :
  (s st = STATE_OPEN -> CloseHere st = {| s := STATE_HALF_CLOSED_HERE |}) /\
  (s st = STATE_HALF_CLOSED_THERE -> CloseHere st = {| s := STATE_CLOSED |}) /\
  (s st <> STATE_OPEN -> s st <> STATE_HALF_CLOSED_THERE -> CloseHere st = st) /\
  (s st = STATE_OPEN -> CloseThere st = {| s := STATE_HALF_CLOSED_THERE |}) /\
  (s st = STATE_HALF_CLOSED_HERE -> CloseThere st = {| s := STATE_CLOSED |}) /\
  (s st <> STATE_OPEN -> s st <> STATE_HALF_CLOSED_HERE -> CloseThere st = st) /\
  Close st = {| s := STATE_CLOSED |} /\
  (Closed (run cs1 st) = true -> Closed (run (cs1 ++ cs2) st) = true).
Proof.
  unfold CloseHere, CloseThere.
  repeat split.
  - intros ->. reflexivity.
  - intros ->. reflexivity.
  - intros H1 H2.
    destruct (Z.eqb_spec (s st) STATE_OPEN); [contradiction |].
    destruct (Z.eqb_spec (s st) STATE_HALF_CLOSED_THERE); [contradiction |].
    reflexivity.
  - intros ->. reflexivity.
  - intros ->. reflexivity.
  - intros H1 H2.
    destruct (Z.eqb_spec (s st) STATE_OPEN); [contradiction |].
    destruct (Z.eqb_spec (s st) STATE_HALF_CLOSED_HERE); [contradiction |].
    reflexivity.
  - intros H. rewrite run_app. apply run_closed, H.
Qed.

Lemma StreamState_transitions_witness :
  CloseHere {| s := STATE_OPEN |} = {| s := STATE_HALF_CLOSED_HERE |} /\
  CloseThere {| s := STATE_OPEN |} = {| s := STATE_HALF_CLOSED_THERE |} /\
  Closed (run ([CallCloseHere; CallCloseThere] ++ [CallCloseHere; CallCloseThere])
              {| s := STATE_OPEN |}) = true.
Proof.
  destruct (StreamState_transitions {| s := STATE_OPEN |}
              [CallCloseHere; CallCloseThere] [CallCloseHere; CallCloseThere])
    as (H1 & _ & _ & H4 & _ & _ & _ & H8).
  split; [| split].
  - apply H1. reflexivity.
  - apply H4. reflexivity.
  - apply H8. reflexivity.
Defined.

End StreamStateMachine.

(** ** NPN strings *)

Section NpnTokens.

Import Version.

#[local] Instance int_desc_trans : Transitive int_desc.
Proof. unfold int_desc. intros x y z Hxy Hyz. lia. Qed.

#[local] Instance int_desc_total : Total int_desc.
Proof. unfold int_desc. intros x y. lia. Qed.

#[local] Instance int_desc_antisymm : AntiSymm eq int_desc.
Proof. unfold int_desc. intros x y Hxy Hyx. lia. Qed.

(** The sorted slice does not depend on the order in which the map's keys
    were collected. *)
Lemma SupportedVersions_any_order (m : gset Z) (collected : list Z) :
  collected ≡ₚ elements m ->
  SupportedVersions_from collected = SupportedVersions m.
Proof.
  intros Hp. unfold SupportedVersions, SupportedVersions_from.
  apply (StronglySorted_unique int_desc).
  - apply StronglySorted_merge_sort; apply _.
  - apply StronglySorted_merge_sort; apply _.
  - rewrite !merge_sort_Permutation. exact Hp.
Qed.

Lemma NpnStrings_last (m : gset Z) : last (NpnStrings m) = Some "http/1.1".
Proof. unfold NpnStrings. apply last_snoc. Qed.

(** C9, as the code has it.  With the initial [supportedVersions], which
    holds 2 and 3, [NpnStrings] returns [spdy/3], [spdy/2] (most recent
    first) and then [http/1.1]; it has no [spdy/3.1] token. *)
Theorem NpnStrings_default :
  NpnStrings supportedVersions = ["spdy/3"; "spdy/2"; "http/1.1"].
Proof. vm_compute. reflexivity. Qed.

(** C9 as stated fails: the list returned is not
    [spdy/3.1], [spdy/3], [spdy/2], [http/1.1], and [spdy/3.1] is no element
    of it. *)
Lemma NpnStrings_default_cex :
  NpnStrings supportedVersions <> ["spdy/3.1"; "spdy/3"; "spdy/2"; "http/1.1"] /\
  "spdy/3.1" ∉ NpnStrings supportedVersions.
Proof.
  replace (NpnStrings supportedVersions) with ["spdy/3"; "spdy/2"; "http/1.1"]
    by (vm_compute; reflexivity).
  split.
  - discriminate.
  - intros Hin. repeat (apply elem_of_cons in Hin as [Heq | Hin]; [discriminate Heq |]).
    apply elem_of_nil in Hin. exact Hin.
Qed.

End NpnTokens.

(** ** The default regrowth policy *)

Section DefaultPolicy.

Import Flow.

(** C8, as the code has it.  For an initial window [W] and a current window
    [c], [ReceiveData] returns [0] when [c >= W/2]; when [c < W/2] it returns
    [W - c] cut down to a [uint32], that is [(W - c) mod 2^32], which is
    [W - c] itself as long as [c > W - 2^32]. *)
Theorem DefaultFlowControl_ReceiveData_delta (f streamID W c : Z) :
  is_uint32 W -> is_int64 c ->
  (c < W / 2 ->
     DefaultFlowControl_ReceiveData f streamID W c = (W - c) mod 2 ^ 32) /\
  (c < W / 2 -> W - 2 ^ 32 < c ->
     DefaultFlowControl_ReceiveData f streamID W c = W - c) /\
  (W / 2 <= c -> DefaultFlowControl_ReceiveData f streamID W c = 0).
Proof.
  intros HW Hc. unfold DefaultFlowControl_ReceiveData.
  rewrite (int64_id W) by (apply uint32_is_int64, HW).
  rewrite Z.quot_div_nonneg by (unfold is_uint32 in HW; lia).
  assert (Hhalf : 0 <= W / 2 <= W)
    by (unfold is_uint32 in HW; split;
        [apply Z.div_pos; lia | apply Z.div_le_upper_bound; lia]).
  repeat split.
  - intros Hlt. destruct (Z.ltb_spec c (W / 2)) as [_ | Hge]; [| lia].
    apply uint32_int64.
  - intros Hlt Hlow. destruct (Z.ltb_spec c (W / 2)) as [_ | Hge]; [| lia].
    rewrite uint32_int64. apply Z.mod_small. lia.
  - intros Hge. destruct (Z.ltb_spec c (W / 2)) as [Hlt | _]; [lia | reflexivity].
Qed.

Lemma DefaultFlowControl_ReceiveData_delta_witness :
  DefaultFlowControl_ReceiveData 65536 1 65536 100 = 65436 /\
  DefaultFlowControl_ReceiveData 65536 1 65536 (-5) = 65541 /\
  DefaultFlowControl_ReceiveData 65536 1 65536 32768 = 0.
Proof.
  assert (HW : is_uint32 65536) by (unfold is_uint32; lia).
  assert (H64 : forall c, -10 < c < 40000 -> is_int64 c)
    by (unfold is_int64; intros; lia).
  split; [| split].
  - destruct (DefaultFlowControl_ReceiveData_delta 65536 1 65536 100 HW)
      as (_ & H & _); [apply H64; lia |].
    apply H; reflexivity.
  - destruct (DefaultFlowControl_ReceiveData_delta 65536 1 65536 (-5) HW)
      as (_ & H & _); [apply H64; lia |].
    apply H; reflexivity.
  - destruct (DefaultFlowControl_ReceiveData_delta 65536 1 65536 32768 HW)
      as (_ & _ & H); [apply H64; lia |].
    apply H. vm_compute. discriminate.
Defined.

(** C8 as stated fails for a window [2^32] or more below [W]: with
    [W = 65536] and [c = 65536 - 2^32], where [c < W/2], the delta [W - c] is
    [2^32] but the value returned is [0]. *)
Lemma DefaultFlowControl_ReceiveData_delta_cex :
  is_uint32 65536 /\ is_int64 (-4294901760) /\ -4294901760 < 65536 / 2 /\
  DefaultFlowControl_ReceiveData 65536 1 65536 (-4294901760) = 0 /\
  DefaultFlowControl_ReceiveData 65536 1 65536 (-4294901760)
  <> 65536 - (-4294901760).
Proof.
  unfold is_uint32, is_int64.
  replace (DefaultFlowControl_ReceiveData 65536 1 65536 (-4294901760)) with 0
    by (vm_compute; reflexivity).
  change (65536 / 2) with 32768.
  repeat split; lia.
Qed.

End DefaultPolicy.

(** ** flowControl *)

Section FlowControlMethods.

Import Flow Sample.

(** The loop of [Flush] ends within [len(f.buffer) - i] iterations. *)
Lemma Flush_loop_total (fuel : nat) : forall i buf out left,
  (length buf - i <= fuel)%nat -> is_Some (Flush_loop fuel i buf out left).
Proof.
  induction fuel as [| fuel IH]; intros i buf out left Hfuel; simpl.
  - destruct (buf !! i) as [chunk |] eqn:Hi; [| eauto].
    apply lookup_lt_Some in Hi. lia.
  - destruct (buf !! i) as [chunk |] eqn:Hi; [| eauto].
    apply lookup_lt_Some in Hi.
    destruct (len chunk <=? left); [| eauto].
    destruct (int64 (left - len chunk) =? 0); [eauto |].
    apply IH. rewrite length_drop. lia.
Qed.

Lemma send_returns (fr : Frame) (f : flowControl) : send fr f <> OutOfFuel.
Proof. unfold send. destruct (output f); discriminate. Qed.

Lemma Flush_returns (f : flowControl) : Flush f <> OutOfFuel.
Proof.
  unfold Flush.
  destruct (negb (constrained (CheckInitialWindow f))
            || (transferWindow (CheckInitialWindow f) =? 0)); [discriminate |].
  destruct (transferWindow (CheckInitialWindow f) <? 0); [discriminate |].
  destruct (Flush_loop_total
              (length (default [] (buffer (CheckInitialWindow f)))) 0
              (default [] (buffer (CheckInitialWindow f))) []
              (transferWindow (CheckInitialWindow f))) as [[[b o] l] ->]; [lia |].
  cbv zeta. apply send_returns.
Qed.

Lemma obind_returns {A B : Type} (m : outcome A) (k : A -> outcome B) :
  m <> OutOfFuel -> (forall a, k a <> OutOfFuel) -> obind m k <> OutOfFuel.
Proof.
  intros Hm Hk. destruct m; simpl; [apply Hk | discriminate | discriminate |].
  contradiction Hm. reflexivity.
Qed.

Lemma UpdateWindow_returns (delta : Z) (f : flowControl) :
  UpdateWindow delta f <> OutOfFuel.
Proof.
  unfold UpdateWindow.
  destruct (_ >? MAX_TRANSFER_WINDOW_SIZE); [discriminate |].
  cbv zeta. apply obind_returns; [apply Flush_returns | discriminate].
Qed.

Lemma Write_returns (data : list byte) (f : flowControl) :
  Write data f <> OutOfFuel.
Proof.
  unfold Write.
  destruct (len data =? 0); [discriminate |].
  destruct (buffer f); [| discriminate].
  destruct (stream f); [| discriminate].
  cbv zeta. apply obind_returns.
  - destruct (constrained (CheckInitialWindow f));
      [apply Flush_returns | discriminate].
  - intros f1. destruct (uint32 (len data) >? window_of f1).
    + destruct (len (take _ data) =? 0); [discriminate |].
      apply obind_returns; [apply send_returns | discriminate].
    + destruct (len data =? 0); [discriminate |].
      apply obind_returns; [apply send_returns | discriminate].
Qed.

Lemma Receive_returns (data : list byte) (f : flowControl) :
  Receive data f <> OutOfFuel.
Proof.
  unfold Receive. apply obind_returns.
  - destruct (transferWindowThere f <? 0); [apply send_returns | discriminate].
  - intros f1. cbv zeta.
    destruct (flowControl' _); [| discriminate].
    destruct (_ =? 0); [discriminate |].
    apply obind_returns; [apply send_returns | discriminate].
Qed.

(** *** Flush *)

(** C1 fails on the code.  [Flush] advances its index [i] and also cuts the
    chunk it has just copied off the front of [f.buffer], so that every
    second chunk is passed over.  With ten bytes of window and the chunks
    [01], [02], [03] buffered, the DATA frame carries [01 03]: byte [02] is
    passed over and then cut off the buffer unsent, and [03] stays buffered
    after it was sent.  With the chunks [01], [02] only [01] is sent although
    both fit, and [constrained] is cleared while [02] is still buffered. *)
Theorem Flush_passes_over_chunks :
  Flush (stalled 10 [[Byte.x01]; [Byte.x02]; [Byte.x03]])
  = Done (set_output (Some [dataFrameV3 1 [Byte.x01; Byte.x03]])
            (set_constrained false
               (set_transferWindow 8
                  (set_buffer (Some [[Byte.x03]])
                     (stalled 10 [[Byte.x01]; [Byte.x02]; [Byte.x03]]))))) /\
  Flush (stalled 10 [[Byte.x01]; [Byte.x02]])
  = Done (set_output (Some [dataFrameV3 1 [Byte.x01]])
            (set_constrained false
               (set_transferWindow 9
                  (set_buffer (Some [[Byte.x02]])
                     (stalled 10 [[Byte.x01]; [Byte.x02]]))))).
Proof. split; vm_compute; reflexivity. Qed.

(** The same through the methods alone: a stream on a connection of initial
    window 4 is written ten bytes, then two, then one, and the peer grants 20
    bytes.  [UpdateWindow] flushes the six bytes left of the first write and
    the one byte of the third; the two bytes of the second write are gone,
    and the byte of the third is still buffered. *)
Lemma UpdateWindow_flush_passes_over_chunk :
  buffered (state_after after_three_writes)
  = [Byte.x34; Byte.x35; Byte.x36; Byte.x37; Byte.x38; Byte.x39;
     Byte.x61; Byte.x62; Byte.x63] /\
  constrained (state_after after_three_writes) = true /\
  output (state_after after_window_update)
  = Some [dataFrameV3 1 [Byte.x30; Byte.x31; Byte.x32; Byte.x33];
          dataFrameV3 1 [Byte.x34; Byte.x35; Byte.x36; Byte.x37; Byte.x38;
                         Byte.x39; Byte.x63]] /\
  buffered (state_after after_window_update) = [Byte.x63] /\
  transferWindow (state_after after_window_update) = 13 /\
  constrained (state_after after_window_update) = false.
Proof. repeat apply conj; vm_compute; reflexivity. Qed.

(** In the claim's terms, at the first of the two states: the bytes sent
    are no prefix of the bytes that were buffered, and the bytes sent followed
    by the bytes left are not the bytes that were buffered. *)
Lemma Flush_output_not_a_prefix :
  let f := stalled 10 [[Byte.x01]; [Byte.x02]; [Byte.x03]] in
  let f' := state_after (Flush f) in
  let sent_bytes := data_sent (default [] (output f')) in
  ~ sent_bytes `prefix_of` buffered f /\
  sent_bytes ++ buffered f' <> buffered f /\
  sent_bytes ++ buffered f' = [Byte.x01; Byte.x03; Byte.x03].
Proof.
  intros f f' sent_bytes.
  replace sent_bytes with [Byte.x01; Byte.x03] by (vm_compute; reflexivity).
  replace (buffered f') with [Byte.x03] by (vm_compute; reflexivity).
  replace (buffered f) with [Byte.x01; Byte.x02; Byte.x03]
    by (vm_compute; reflexivity).
  repeat apply conj.
  - intros [k Hk]. simpl in Hk. discriminate Hk.
  - discriminate.
  - reflexivity.
Qed.

(** With a single chunk buffered the loop is right: it moves the longest
    prefix of the chunk that fits [left] to [out]. *)
Lemma Flush_loop_single (chunk : list byte) (left : Z) :
  exists left1,
    Flush_loop 1 0 [chunk] [] left
    = Some (if len chunk <=? left then [] else [drop (Z.to_nat left) chunk],
            take (Z.to_nat left) chunk, left1).
Proof.
  simpl.
  destruct (Z.leb_spec (len chunk) left) as [Hle | Hgt].
  - rewrite take_ge by (unfold len in Hle; lia).
    destruct (int64 (left - len chunk) =? 0); eauto.
  - eauto.
Qed.

Lemma Flush_single_chunk (f : flowControl) (chunk : list byte) (q : list Frame) :
  CheckInitialWindow f = f -> constrained f = true ->
  0 < transferWindow f -> is_int64 (transferWindow f) ->
  buffer f = Some [chunk] -> output f = Some q ->
  let out := take (Z.to_nat (transferWindow f)) chunk in
  let rest := drop (Z.to_nat (transferWindow f)) chunk in
  let w := transferWindow f - len out in
  Flush f
  = Done (set_output (Some (q ++ [dataFrameV3 (streamID f) out]))
            ((if w >? 0 then set_constrained false else id)
               (set_transferWindow w
                  (set_buffer
                     (Some (if len chunk <=? transferWindow f then [] else [rest]))
                     f)))).
Proof.
  intros Hcheck Hcon Hpos H64 Hbuf Hq out rest w.
  unfold Flush. rewrite Hcheck, Hcon. simpl negb. simpl orb.
  destruct (Z.eqb_spec (transferWindow f) 0) as [H0 | _]; [lia |].
  destruct (Z.ltb_spec (transferWindow f) 0) as [Hlt | _]; [lia |].
  rewrite Hbuf. simpl default. simpl length.
  destruct (Flush_loop_single chunk (transferWindow f)) as [left1 ->].
  fold out. fold rest. cbv zeta.
  assert (Hw : int64 (transferWindow f - len out) = w).
  { apply int64_id. unfold is_int64 in *. unfold w, len, out.
    rewrite length_take. lia. }
  set (fb := set_buffer _ f).
  change (transferWindow fb) with (transferWindow f). rewrite Hw.
  change (transferWindow (set_transferWindow w fb)) with w.
  unfold send.
  destruct (w >? 0); simpl; rewrite Hq; reflexivity.
Qed.

(** *** Receive *)

(** What [Receive] does when the receive window is already negative: it
    sends the RST_STREAM and then goes on as it does otherwise, taking the
    length of the data off the window, asking the policy, and sending the
    WINDOW_UPDATE the policy asks for. *)
Lemma Receive_negative_window
    (data : list byte) (f : flowControl) (q : list Frame) (fc : FlowControl) :
  transferWindowThere f < 0 -> output f = Some q -> flowControl' f = Some fc ->
  let w := int64 (transferWindowThere f - len data) in
  let delta := ReceiveData fc (streamID f) (initialWindowThere f) w in
  let rst := rstStreamFrameV3 (streamID f) RST_STREAM_FLOW_CONTROL_ERROR in
  Receive data f
  = Done (if delta =? 0
          then set_transferWindowThere w (set_output (Some (q ++ [rst])) f)
          else set_transferWindowThere (int64 (w + int64 delta))
                 (set_output
                    (Some ((q ++ [rst]) ++ [windowUpdateFrameV3 (streamID f) delta]))
                    f)).
Proof.
  intros Hneg Hq Hfc w delta rst. unfold Receive.
  destruct (Z.ltb_spec (transferWindowThere f) 0) as [_ | Hge]; [| lia].
  unfold send. rewrite Hq. simpl. rewrite Hfc.
  fold w. fold delta.
  destruct (delta =? 0); reflexivity.
Qed.

(** C2 fails on the code.  The receive window stands at [-4] (the policy
    regrows it by 4 after every read) and one byte arrives: the RST_STREAM
    with FLOW_CONTROL_ERROR is sent, and then the window is taken down to
    [-5], the policy is asked, and its WINDOW_UPDATE of 4 is sent, which
    leaves the window at [-1]. *)
Theorem Receive_negative_window_goes_on :
  Receive [Byte.x01] (receiving (-4))
  = Done (set_transferWindowThere (-1)
            (set_output
               (Some [rstStreamFrameV3 1 RST_STREAM_FLOW_CONTROL_ERROR;
                      windowUpdateFrameV3 1 4])
               (receiving (-4)))).
Proof. reflexivity. Qed.

(** The window of [-4] is reached from the policy's initial 8 by one read of
    16 bytes. *)
Lemma receiving_negative_reached :
  Receive (replicate 16 Byte.x01) (receiving 8)
  = Done (set_output (Some [windowUpdateFrameV3 1 4]) (receiving (-4))).
Proof. reflexivity. Qed.

(** *** AddFlowControl *)

Lemma serverStreamV3_AddFlowControl_window (f : FlowControl) (s : streamV3) (w : Z) :
  flow s = None -> Conn_InitialWindowSize (conn s) = Ok w ->
  is_uint32 (InitialWindowSize f) ->
  initialWindowThere (flow_of (serverStreamV3_AddFlowControl f s))
  = InitialWindowSize f /\
  transferWindowThere (flow_of (serverStreamV3_AddFlowControl f s))
  = InitialWindowSize f.
Proof.
  intros Hflow Hconn Hrange. unfold serverStreamV3_AddFlowControl.
  rewrite Hflow, Hconn. simpl.
  split; [reflexivity | apply int64_id, uint32_is_int64, Hrange].
Qed.

Lemma clientStreamV3_AddFlowControl_window (f : FlowControl) (r : streamV3) (w : Z) :
  flow r = None -> Conn_InitialWindowSize (conn r) = Ok w ->
  is_uint32 (InitialWindowSize f) ->
  initialWindowThere (flow_of (clientStreamV3_AddFlowControl f r))
  = InitialWindowSize f /\
  transferWindowThere (flow_of (clientStreamV3_AddFlowControl f r))
  = InitialWindowSize f.
Proof.
  intros Hflow Hconn Hrange. unfold clientStreamV3_AddFlowControl.
  rewrite Hflow, Hconn. simpl.
  split; [reflexivity | apply int64_id, uint32_is_int64, Hrange].
Qed.

(** The push stream's variant converts the new struct's own
    [transferWindowThere], which is still [0]. *)
Lemma pushStreamV3_AddFlowControl_window (f : FlowControl) (p : streamV3) (w : Z) :
  flow p = None -> Conn_InitialWindowSize (conn p) = Ok w ->
  initialWindowThere (flow_of (pushStreamV3_AddFlowControl f p))
  = InitialWindowSize f /\
  transferWindowThere (flow_of (pushStreamV3_AddFlowControl f p)) = 0.
Proof.
  intros Hflow Hconn. unfold pushStreamV3_AddFlowControl.
  rewrite Hflow, Hconn. simpl. split; reflexivity.
Qed.

(** C3 fails on the code for [pushStreamV3].  With the policy
    [DefaultFlowControl(65536)] on a connection that reports its initial
    window, the server and client variants leave [transferWindowThere] at
    [65536], the policy's [InitialWindowSize()]; the push variant records
    that size in [initialWindowThere] and leaves [transferWindowThere] at
    [0]. *)
Theorem pushStreamV3_AddFlowControl_window_unset :
  InitialWindowSize (DefaultFlowControl 65536) = 65536 /\
  transferWindowThere
    (flow_of (serverStreamV3_AddFlowControl
                (DefaultFlowControl 65536) (fresh_stream 65536))) = 65536 /\
  transferWindowThere
    (flow_of (clientStreamV3_AddFlowControl
                (DefaultFlowControl 65536) (fresh_stream 65536))) = 65536 /\
  initialWindowThere
    (flow_of (pushStreamV3_AddFlowControl
                (DefaultFlowControl 65536) (fresh_stream 65536))) = 65536 /\
  transferWindowThere
    (flow_of (pushStreamV3_AddFlowControl
                (DefaultFlowControl 65536) (fresh_stream 65536))) = 0.
Proof. repeat apply conj; vm_compute; reflexivity. Qed.

(** *** UpdateWindow *)

(** C5.  [UpdateWindow(delta)] returns its error exactly when
    [int64(delta) + transferWindow] is above [MAX_TRANSFER_WINDOW_SIZE], and
    then the state is as it was; otherwise it returns [nil] after running
    [Flush] on a state [g] that differs from the one it was called on in
    [transferWindow] alone, which is larger by exactly [delta]: the window
    is grown before anything buffered is flushed.  The sum is Go's [int64]
    sum; it is the sum of the integers whenever that is below [2^63]. *)
Theorem UpdateWindow_overflow_check (delta : Z) (f : flowControl) :
  is_uint32 delta -> is_int64 (transferWindow f) ->
  (int64 (delta + transferWindow f) > MAX_TRANSFER_WINDOW_SIZE ->
     UpdateWindow delta f = Done (f, Some UpdateWindow_error)) /\
  (int64 (delta + transferWindow f) <= MAX_TRANSFER_WINDOW_SIZE ->
     exists g,
       UpdateWindow delta f = (f' <~ Flush g ;; Done (f', None)) /\
       transferWindow g = int64 (transferWindow f + delta) /\
       (delta + transferWindow f < 2 ^ 63 ->
          transferWindow g = transferWindow f + delta) /\
       stream g = stream f /\ streamID g = streamID f /\
       output g = output f /\ initialWindow g = initialWindow f /\
       sent g = sent f /\ buffer g = buffer f /\
       constrained g = constrained f /\
       initialWindowThere g = initialWindowThere f /\
       transferWindowThere g = transferWindowThere f /\
       flowControl' g = flowControl' f) /\
  (forall f' e, UpdateWindow delta f = Done (f', Some e) ->
     int64 (delta + transferWindow f) > MAX_TRANSFER_WINDOW_SIZE /\ f' = f) /\
  (delta + transferWindow f < 2 ^ 63 ->
     int64 (delta + transferWindow f) = delta + transferWindow f /\
     int64 (transferWindow f + delta) = transferWindow f + delta).
Proof.
  intros Hd Hw.
  assert (Hplain : delta + transferWindow f < 2 ^ 63 ->
            int64 (delta + transferWindow f) = delta + transferWindow f /\
            int64 (transferWindow f + delta) = transferWindow f + delta).
  { intros Hfit. split; apply int64_id; unfold is_int64, is_uint32 in *; lia. }
  unfold UpdateWindow.
  rewrite (int64_id delta) by (apply uint32_is_int64, Hd).
  destruct (Z.gtb_spec (int64 (delta + transferWindow f)) MAX_TRANSFER_WINDOW_SIZE)
    as [Hgt | Hle].
  - split; [intros _; reflexivity |].
    split; [intros Hle; lia |].
    split; [| exact Hplain].
    intros f' e [= <- _]. split; [lia | reflexivity].
  - split; [intros Hgt; lia |].
    split; [| split; [| exact Hplain]].
    + intros _.
      exists (set_transferWindow (int64 (transferWindow f + delta)) f).
      split; [reflexivity |].
      split; [reflexivity |].
      split; [intros Hfit; apply (Hplain Hfit) |].
      repeat apply conj; reflexivity.
    + intros f' e H. exfalso.
      destruct (Flush _) as [f1 | | |] in H; simpl in H; congruence.
Qed.

Lemma UpdateWindow_overflow_check_witness :
  UpdateWindow 2147483648 (stalled 10 [[Byte.x01]])
  = Done (stalled 10 [[Byte.x01]], Some UpdateWindow_error) /\
  (exists g,
     UpdateWindow 5 (stalled 10 [[Byte.x01]])
     = (f' <~ Flush g ;; Done (f', None)) /\
     transferWindow g = 15 /\ buffer g = Some [[Byte.x01]] /\
     constrained g = true) /\
  UpdateWindow 5 (stalled 10 [[Byte.x01]])
  = Done (set_output (Some [dataFrameV3 1 [Byte.x01]])
            (set_constrained false
               (set_transferWindow 14
                  (set_buffer (Some []) (stalled 10 [[Byte.x01]])))),
          None).
Proof.
  assert (Hd1 : is_uint32 2147483648) by (unfold is_uint32; lia).
  assert (Hd2 : is_uint32 5) by (unfold is_uint32; lia).
  assert (Hw : is_int64 (transferWindow (stalled 10 [[Byte.x01]])))
    by (unfold is_int64; simpl; lia).
  split; [| split].
  - destruct (UpdateWindow_overflow_check 2147483648 _ Hd1 Hw) as (H & _).
    apply H. vm_compute. reflexivity.
  - destruct (UpdateWindow_overflow_check 5 _ Hd2 Hw) as (_ & H & _).
    destruct H as (g & HU & _ & Htw & _ & _ & _ & _ & _ & Hb & Hc & _).
    + vm_compute. discriminate.
    + exists g. split; [exact HU |]. split; [| split].
      * rewrite Htw; [reflexivity | vm_compute; reflexivity].
      * rewrite Hb. reflexivity.
      * rewrite Hc. reflexivity.
  - vm_compute. reflexivity.
Defined.

(** *** Write *)

(** A write that fits the window, on a stream that is not constrained and
    whose connection still has the initial window of the set-up: the whole
    slice is sent in one DATA frame, [(N, nil)] is returned, and no field but
    [output] changes: neither [transferWindow] nor [sent] is touched. *)
Lemma Write_fits (data : list byte) (f : flowControl)
    (b : list (list byte)) (st : Stream) (q : list Frame) :
  data <> [] -> buffer f = Some b -> stream f = Some st -> output f = Some q ->
  CheckInitialWindow f = f -> constrained f = false ->
  uint32 (len data) <= window_of f ->
  Write data f
  = Done (set_output (Some (q ++ [dataFrameV3 (streamID f) data])) f,
          (len data, None)).
Proof.
  intros Hne Hb Hst Hq Hcheck Hcon Hfit. unfold Write.
  assert (Hlen : (len data =? 0) = false).
  { apply Z.eqb_neq. unfold len. destruct data; [contradiction | simpl; lia]. }
  rewrite Hlen, Hb, Hst, Hcheck, Hcon. simpl obind.
  destruct (Z.gtb_spec (uint32 (len data)) (window_of f)) as [Hgt | _]; [lia |].
  rewrite Hlen. unfold send. rewrite Hq. reflexivity.
Qed.

(** A write that exceeds the window, on such a stream: the first [W] bytes
    are sent (no frame if [W = 0]), the rest is appended to the buffer,
    [constrained] is set, [transferWindow] goes down by [W] and [sent] up by
    [W], and [(N, nil)] is returned. *)
Lemma Write_exceeds (data : list byte) (f : flowControl)
    (b : list (list byte)) (st : Stream) (q : list Frame) :
  buffer f = Some b -> stream f = Some st -> output f = Some q ->
  CheckInitialWindow f = f -> constrained f = false ->
  is_uint32 (len data) -> window_of f < len data ->
  let W := window_of f in
  let f1 :=
    set_constrained true
      (set_transferWindow (int64 (transferWindow f - int64 W))
         (set_sent (uint32 (sent f + W))
            (set_buffer (Some (b ++ [drop (Z.to_nat W) data])) f))) in
  Write data f
  = Done (if W =? 0 then f1
          else set_output
                 (Some (q ++ [dataFrameV3 (streamID f) (take (Z.to_nat W) data)])) f1,
          (len data, None)).
Proof.
  intros Hb Hst Hq Hcheck Hcon Hrange Hexc W f1.
  assert (HW : 0 <= W).
  { unfold W, window_of. destruct (transferWindow f <? 0); [lia |].
    apply uint32_range. }
  unfold Write.
  assert (Hlen : (len data =? 0) = false) by (apply Z.eqb_neq; lia).
  rewrite Hlen, Hb, Hst, Hcheck, Hcon. simpl obind.
  fold W. rewrite (uint32_id _ Hrange).
  destruct (Z.gtb_spec (len data) W) as [_ | Hle]; [| lia].
  rewrite Hb. simpl default.
  change (set_constrained true _) with f1.
  assert (Htake : len (take (Z.to_nat W) data) = W).
  { unfold len in *. rewrite length_take. lia. }
  rewrite Htake.
  destruct (W =? 0); [reflexivity |].
  unfold send. change (output f1) with (output f). rewrite Hq. reflexivity.
Qed.

(** C4 fails on the code where the write fits the window.  On a stream just
    set up with a window of 65536, [Write] of three bytes returns [(3, nil)]
    and sends them in one DATA frame, and [transferWindow] is 65536 after
    the call as before it, not 65533; [sent] stays [0]. *)
Theorem Write_fitting_keeps_window :
  let f := flow_of (serverStreamV3_AddFlowControl
                      (DefaultFlowControl 65536) (fresh_stream 65536)) in
  transferWindow f = 65536 /\ constrained f = false /\
  buffer f = Some [] /\ sent f = 0 /\
  Write [Byte.x01; Byte.x02; Byte.x03] f
  = Done (set_output (Some [dataFrameV3 1 [Byte.x01; Byte.x02; Byte.x03]]) f,
          (3, None)) /\
  transferWindow
    (set_output (Some [dataFrameV3 1 [Byte.x01; Byte.x02; Byte.x03]]) f) = 65536.
Proof.
  intros f.
  do 4 (split; [reflexivity |]). split; [| reflexivity].
  apply (Write_fits [Byte.x01; Byte.x02; Byte.x03] f []
           (as_Stream (fresh_stream 65536)) []); try reflexivity.
  - discriminate.
  - vm_compute. discriminate.
Qed.

(** Where the write exceeds the window the claim's account holds: with four
    bytes of window, ten bytes written send four and buffer six. *)
Lemma Write_exceeding_window_example :
  let f := flow_of (serverStreamV3_AddFlowControl
                      (DefaultFlowControl 65536) (fresh_stream 4)) in
  exists f', Write (replicate 10 Byte.x01) f = Done (f', (10, None)) /\
    output f' = Some [dataFrameV3 1 (replicate 4 Byte.x01)] /\
    buffer f' = Some [replicate 6 Byte.x01] /\
    constrained f' = true /\ transferWindow f' = 0 /\ sent f' = 4.
Proof.
  intros f.
  eexists. split.
  - apply (Write_exceeds (replicate 10 Byte.x01) f [] (as_Stream (fresh_stream 4)) []);
      try reflexivity.
    unfold is_uint32. vm_compute. split; [discriminate | reflexivity].
  - repeat apply conj; reflexivity.
Qed.

End FlowControlMethods.

(** * Further properties of the embedded code *)

(** ** streamLimit: counting admissions *)

Section StreamLimitCounting.

Import Limit.

(** X1.  Starting with [current <= limit], [n] calls of [Add] in a row admit
    the first [limit - current] of them (or all [n], if fewer) and refuse
    the rest, and leave [current] raised by the number admitted. *)
Theorem Adds_admits_up_to_limit (n : nat) : forall s : streamLimit,
  is_uint32 (limit s) -> 0 <= current s <= limit s ->
  Adds n s
  = ({| limit := limit s;
        current := current s + Z.of_nat (n `min` Z.to_nat (limit s - current s)) |},
     replicate (n `min` Z.to_nat (limit s - current s)) true
     ++ replicate (n - Z.to_nat (limit s - current s)) false).
Proof.
  induction n as [| n IH]; intros s Hl Hc.
  - simpl. destruct s as [l c]. simpl. f_equal. f_equal. lia.
  - destruct (Z_lt_le_dec (current s) (limit s)) as [Hlt | Hge].
    + simpl. rewrite (Add_room s Hl) by lia.
      rewrite IH by (simpl; unfold is_uint32 in *; lia). simpl.
      assert (Hroom : Z.to_nat (limit s - current s)
                      = S (Z.to_nat (limit s - (current s + 1)))) by lia.
      rewrite Hroom. simpl. f_equal. f_equal. lia.
    + rewrite (Adds_full (S n) s) by lia.
      replace (Z.to_nat (limit s - current s)) with 0%nat by lia.
      rewrite Nat.min_0_r, Nat.sub_0_r. simpl.
      destruct s as [l c]. simpl. f_equal. f_equal. lia.
Qed.

Lemma Adds_admits_up_to_limit_witness :
  Adds 5 {| limit := 3; current := 1 |}
  = ({| limit := 3; current := 3 |}, [true; true; false; false; false]).
Proof.
  apply (Adds_admits_up_to_limit 5 {| limit := 3; current := 1 |}).
  - unfold is_uint32. simpl. lia.
  - simpl. lia.
Defined.

(** X2.  An admitted [Add] followed by [Close] gives the limiter back as it
    was, and so does a [Close] followed by [Add] when the counter was
    positive and not above the limit. *)
Theorem Add_Close_round_trip (s : streamLimit) :
  is_uint32 (limit s) -> is_uint32 (current s) ->
  (current s < limit s -> (Add s).2 = true /\ Close (Add s).1 = s) /\
  (0 < current s <= limit s -> Add (Close s) = (s, true)).
Proof.
  intros Hl Hc. unfold is_uint32 in *. split.
  - intros Hlt. rewrite (Add_room s) by (unfold is_uint32; lia).
    split; [reflexivity |]. unfold Close. simpl.
    rewrite uint32_id by (unfold is_uint32; lia).
    destruct s as [l c]. simpl. f_equal. lia.
  - intros Hpos.
    assert (Hcl : Close s = {| limit := limit s; current := current s - 1 |}).
    { unfold Close. rewrite uint32_id by (unfold is_uint32; lia). reflexivity. }
    rewrite Hcl, Add_room by (simpl; unfold is_uint32; lia). simpl.
    destruct s as [l c]. simpl. f_equal. f_equal. lia.
Qed.

Lemma Add_Close_round_trip_witness :
  Close (Add {| limit := 3; current := 1 |}).1 = {| limit := 3; current := 1 |} /\
  Add (Close {| limit := 3; current := 3 |}) = ({| limit := 3; current := 3 |}, true).
Proof.
  destruct (Add_Close_round_trip {| limit := 3; current := 1 |}) as (H1 & _);
    [unfold is_uint32; simpl; lia | unfold is_uint32; simpl; lia |].
  destruct (Add_Close_round_trip {| limit := 3; current := 3 |}) as (_ & H2);
    [unfold is_uint32; simpl; lia | unfold is_uint32; simpl; lia |].
  split.
  - apply H1. simpl. lia.
  - apply H2. simpl. lia.
Defined.

End StreamLimitCounting.

(** ** StreamState: the two sides *)

Section StreamStateSides.

Import State StateView.

Lemma named_cases (st : StreamState) :
  named st ->
  st = {| s := STATE_OPEN |} \/ st = {| s := STATE_HALF_CLOSED_HERE |} \/
  st = {| s := STATE_HALF_CLOSED_THERE |} \/ st = {| s := STATE_CLOSED |}.
Proof.
  unfold named. destruct st as [z]. simpl. intros H.
  assert (Hz : z = 0 \/ z = 1 \/ z = 2 \/ z = 3) by lia.
  destruct Hz as [-> | [-> | [-> | ->]]]; auto.
Qed.

Lemma apply_call_named (st : StreamState) (c : call) :
  named st -> named (apply_call st c).
Proof.
  intros H. destruct (named_cases st H) as [-> | [-> | [-> | ->]]];
    destruct c; unfold named; cbv; split; intros Hd; discriminate Hd.
Qed.

Lemma run_named (cs : list call) : forall st, named st -> named (run cs st).
Proof.
  induction cs as [| c cs IH]; intros st H; simpl; [exact H |].
  apply IH, apply_call_named, H.
Qed.

(** X3.  Whatever sequence of [Close], [CloseHere] and [CloseThere] a new
    [StreamState] has been through, it is in one of the four named states,
    [Open()] says that both sides are open and [Closed()] that both are
    closed. *)
Theorem StreamState_queries_agree (cs : list call) :
  let st := run cs {| s := STATE_OPEN |} in
  named st /\
  Open st = OpenHere st && OpenThere st /\
  Closed st = ClosedHere st && ClosedThere st.
Proof.
  intros st.
  assert (H : named st)
    by (apply run_named; unfold named, STATE_OPEN; simpl; lia).
  split; [exact H |].
  destruct (named_cases st H) as [-> | [-> | [-> | ->]]]; split; reflexivity.
Qed.

(** X4.  A side that is closed stays closed under every call, and a
    half-close of one side never changes whether the other side is closed. *)
Theorem StreamState_sides_independent (st : StreamState) (c : call) :
  (ClosedHere st = true -> ClosedHere (apply_call st c) = true) /\
  (ClosedThere st = true -> ClosedThere (apply_call st c) = true) /\
  ClosedThere (CloseHere st) = ClosedThere st /\
  ClosedHere (CloseThere st) = ClosedHere st.
Proof.
  destruct st as [z].
  unfold ClosedHere, ClosedThere, CloseHere, CloseThere,
    STATE_OPEN, STATE_HALF_CLOSED_HERE, STATE_HALF_CLOSED_THERE, STATE_CLOSED.
  destruct c; simpl;
    destruct (Z.eqb_spec z 0) as [-> | H0]; simpl;
    try (repeat apply conj; intros; (reflexivity || discriminate));
    destruct (Z.eqb_spec z 1) as [-> | H1]; simpl;
    try (repeat apply conj; intros; (reflexivity || discriminate));
    destruct (Z.eqb_spec z 2) as [-> | H2]; simpl;
    try (repeat apply conj; intros; (reflexivity || discriminate));
    destruct (Z.eqb_spec z 3) as [-> | H3]; simpl;
    try (repeat apply conj; intros; (reflexivity || discriminate)).
  all: repeat apply conj; intros;
    repeat match goal with
           | |- context [?a =? ?b] => destruct (Z.eqb_spec a b); try lia
           end; simpl in *; try reflexivity; try discriminate.
Qed.

Lemma StreamState_sides_independent_witness :
  ClosedHere (apply_call {| s := STATE_HALF_CLOSED_HERE |} CallCloseThere) = true /\
  ClosedThere (apply_call {| s := STATE_HALF_CLOSED_THERE |} CallCloseHere) = true.
Proof.
  destruct (StreamState_sides_independent
              {| s := STATE_HALF_CLOSED_HERE |} CallCloseThere) as (H1 & _).
  destruct (StreamState_sides_independent
              {| s := STATE_HALF_CLOSED_THERE |} CallCloseHere) as (_ & H2 & _).
  split; [apply H1 | apply H2]; reflexivity.
Defined.

(** X5.  The two half-closes commute, each is idempotent, and a stream in a
    named state that has been half-closed from both sides, in either order,
    is closed. *)
Theorem StreamState_half_closes_commute (st : StreamState) :
  CloseHere (CloseThere st) = CloseThere (CloseHere st) /\
  CloseHere (CloseHere st) = CloseHere st /\
  CloseThere (CloseThere st) = CloseThere st /\
  (named st -> Closed (CloseHere (CloseThere st)) = true).
Proof.
  assert (Hgen : forall z, ~ 0 <= z <= 3 ->
            CloseHere {| s := z |} = {| s := z |} /\
            CloseThere {| s := z |} = {| s := z |}).
  { intros z Hz. unfold CloseHere, CloseThere,
      STATE_OPEN, STATE_HALF_CLOSED_HERE, STATE_HALF_CLOSED_THERE. simpl.
    destruct (Z.eqb_spec z 0); [lia |].
    destruct (Z.eqb_spec z 1); [lia |].
    destruct (Z.eqb_spec z 2); [lia |]. split; reflexivity. }
  destruct st as [z].
  destruct (decide (0 <= z <= 3)) as [Hin | Hout].
  - destruct (named_cases {| s := z |} Hin) as [-> | [-> | [-> | ->]]];
      repeat apply conj; reflexivity.
  - destruct (Hgen z Hout) as [Hh Ht].
    repeat apply conj.
    + rewrite Ht, Hh, Ht. reflexivity.
    + rewrite Hh, Hh. reflexivity.
    + rewrite Ht, Ht. reflexivity.
    + intros Hn. unfold named in Hn. simpl in Hn. contradiction.
Qed.

Lemma StreamState_half_closes_commute_witness :
  Closed (CloseHere (CloseThere {| s := STATE_OPEN |})) = true.
Proof.
  destruct (StreamState_half_closes_commute {| s := STATE_OPEN |})
    as (_ & _ & _ & H).
  apply H. unfold named, STATE_OPEN. simpl. lia.
Defined.

End StreamStateSides.

(** ** Status codes *)

Section StatusCodes.

Import Status.

Lemma StatusCodeText_unknown (code : Z) :
  ~ 1 <= code <= 11 -> StatusCodeText code = EmptyString.
Proof.
  intros H. unfold StatusCodeText, statusCodeText,
    RST_STREAM_PROTOCOL_ERROR, RST_STREAM_INVALID_STREAM,
    RST_STREAM_REFUSED_STREAM, RST_STREAM_UNSUPPORTED_VERSION,
    RST_STREAM_CANCEL, RST_STREAM_INTERNAL_ERROR,
    RST_STREAM_FLOW_CONTROL_ERROR, RST_STREAM_STREAM_IN_USE,
    RST_STREAM_STREAM_ALREADY_CLOSED, RST_STREAM_INVALID_CREDENTIALS,
    RST_STREAM_FRAME_TOO_LARGE.
  rewrite !lookup_insert_ne by lia. rewrite lookup_empty. reflexivity.
Qed.

Lemma known_code_cases (code : Z) :
  1 <= code <= 11 ->
  code = 1 \/ code = 2 \/ code = 3 \/ code = 4 \/ code = 5 \/ code = 6 \/
  code = 7 \/ code = 8 \/ code = 9 \/ code = 10 \/ code = 11.
Proof. lia. Qed.

(** X6.  [StatusCodeText] returns the empty string exactly for the codes
    outside 1..11, and no two codes share a text that is not empty. *)
Theorem StatusCodeText_names_known_codes (code code' : Z) :
  (StatusCodeText code = EmptyString <-> ~ 1 <= code <= 11) /\
  (1 <= code <= 11 -> StatusCodeText code = StatusCodeText code' -> code = code').
Proof.
  assert (Hknown : forall c, 1 <= c <= 11 -> StatusCodeText c <> EmptyString).
  { intros c Hc.
    destruct (known_code_cases c Hc)
      as [-> | [-> | [-> | [-> | [-> | [-> | [-> | [-> | [-> | [-> | ->]]]]]]]]]];
      vm_compute; discriminate. }
  split.
  - split.
    + intros He Hin. exact (Hknown code Hin He).
    + apply StatusCodeText_unknown.
  - intros Hin Heq.
    destruct (decide (1 <= code' <= 11)) as [Hin' | Hout'].
    + destruct (known_code_cases code Hin)
        as [-> | [-> | [-> | [-> | [-> | [-> | [-> | [-> | [-> | [-> | ->]]]]]]]]]];
      destruct (known_code_cases code' Hin')
        as [-> | [-> | [-> | [-> | [-> | [-> | [-> | [-> | [-> | [-> | ->]]]]]]]]]];
      first [reflexivity | vm_compute in Heq; discriminate Heq].
    + rewrite (StatusCodeText_unknown code' Hout') in Heq.
      contradiction (Hknown code Hin Heq).
Qed.

Lemma StatusCodeText_names_known_codes_witness :
  (StatusCodeText 12 = EmptyString <-> ~ 1 <= 12 <= 11) /\
  (StatusCodeText 7 = StatusCodeText 7 -> 7 = 7).
Proof.
  destruct (StatusCodeText_names_known_codes 12 0) as (H1 & _).
  destruct (StatusCodeText_names_known_codes 7 7) as (_ & H2).
  split; [exact H1 |]. apply H2. lia.
Defined.

End StatusCodes.

(** ** Enabling and disabling versions *)

Section VersionSwitches.

Import Version.

(** X7.  [EnableSpdyVersion] and [DisableSpdyVersion] succeed exactly for
    the versions 2 and 3; for every other version they return an error and
    leave the set of supported versions as it is. *)
Theorem version_switch_errors (v : Z) (m : gset Z) :
  (2 <= v <= 3 ->
     (EnableSpdyVersion v m).2 = None /\ (DisableSpdyVersion v m).2 = None) /\
  (~ 2 <= v <= 3 ->
     exists e, EnableSpdyVersion v m = (m, Some e) /\
               DisableSpdyVersion v m = (m, Some e)).
Proof.
  unfold EnableSpdyVersion, DisableSpdyVersion, minVersion, maxVersion.
  split.
  - intros Hv.
    destruct (Z.eqb_spec v 0); [lia |].
    destruct (Z.ltb_spec v 2); [lia |].
    destruct (Z.gtb_spec v 3); [lia |]. split; reflexivity.
  - intros Hv.
    destruct (Z.eqb_spec v 0); [eauto |].
    destruct (Z.ltb_spec v 2); [eauto |].
    destruct (Z.gtb_spec v 3); [eauto | lia].
Qed.

Lemma version_switch_errors_witness :
  (EnableSpdyVersion 3 supportedVersions).2 = None /\
  exists e, EnableSpdyVersion 4 supportedVersions = (supportedVersions, Some e) /\
            DisableSpdyVersion 4 supportedVersions = (supportedVersions, Some e).
Proof.
  destruct (version_switch_errors 3 supportedVersions) as (H1 & _).
  destruct (version_switch_errors 4 supportedVersions) as (_ & H2).
  split; [apply H1; lia | apply H2; lia].
Defined.

Lemma Enable_ok (v : Z) (m : gset Z) :
  2 <= v <= 3 -> (EnableSpdyVersion v m).1 = {[ v ]} ∪ m.
Proof.
  intros Hv. unfold EnableSpdyVersion, minVersion, maxVersion.
  destruct (Z.eqb_spec v 0); [lia |].
  destruct (Z.ltb_spec v 2); [lia |].
  destruct (Z.gtb_spec v 3); [lia |]. reflexivity.
Qed.

Lemma Disable_ok (v : Z) (m : gset Z) :
  2 <= v <= 3 -> (DisableSpdyVersion v m).1 = m ∖ {[ v ]}.
Proof.
  intros Hv. unfold DisableSpdyVersion, minVersion, maxVersion.
  destruct (Z.eqb_spec v 0); [lia |].
  destruct (Z.ltb_spec v 2); [lia |].
  destruct (Z.gtb_spec v 3); [lia |]. reflexivity.
Qed.

(** X8.  For a version [v] of 2 or 3: after [EnableSpdyVersion(v)],
    [SupportedVersion(v)] is true, after [DisableSpdyVersion(v)] it is false,
    and neither changes the answer for any other version; disabling and
    re-enabling a supported version, or enabling and disabling again an
    unsupported one, gives the set back. *)
Theorem version_switch_round_trip (v : Z) (m : gset Z) :
  2 <= v <= 3 ->
  SupportedVersion (EnableSpdyVersion v m).1 v = true /\
  SupportedVersion (DisableSpdyVersion v m).1 v = false /\
  (forall u, u <> v ->
     SupportedVersion (EnableSpdyVersion v m).1 u = SupportedVersion m u /\
     SupportedVersion (DisableSpdyVersion v m).1 u = SupportedVersion m u) /\
  (SupportedVersion m v = true ->
     (EnableSpdyVersion v (DisableSpdyVersion v m).1).1 = m) /\
  (SupportedVersion m v = false ->
     (DisableSpdyVersion v (EnableSpdyVersion v m).1).1 = m).
Proof.
  intros Hv. unfold SupportedVersion.
  rewrite !Enable_ok, !Disable_ok by exact Hv.
  clear Hv. repeat apply conj.
  - apply bool_decide_eq_true, elem_of_union_l, elem_of_singleton. reflexivity.
  - apply bool_decide_eq_false. rewrite elem_of_difference, elem_of_singleton.
    tauto.
  - intros u Hu. split; apply bool_decide_ext.
    + rewrite elem_of_union, elem_of_singleton. tauto.
    + rewrite elem_of_difference, elem_of_singleton. tauto.
  - intros Hin. apply bool_decide_eq_true in Hin.
    apply set_eq. intros u.
    rewrite elem_of_union, elem_of_difference, elem_of_singleton.
    destruct (decide (u = v)) as [-> | Hne]; tauto.
  - intros Hout. apply bool_decide_eq_false in Hout.
    apply set_eq. intros u.
    rewrite elem_of_difference, elem_of_union, elem_of_singleton.
    destruct (decide (u = v)) as [-> | Hne]; tauto.
Qed.

Lemma version_switch_round_trip_witness :
  SupportedVersion (DisableSpdyVersion 2 supportedVersions).1 2 = false /\
  (EnableSpdyVersion 2 (DisableSpdyVersion 2 supportedVersions).1).1
  = supportedVersions.
Proof.
  destruct (version_switch_round_trip 2 supportedVersions) as (_ & H2 & _ & H4 & _);
    [lia |].
  split; [exact H2 |]. apply H4. vm_compute. reflexivity.
Defined.

Lemma StronglySorted_strict (l : list Z) :
  StronglySorted int_desc l -> NoDup l -> StronglySorted (fun x y => y < x) l.
Proof.
  induction 1 as [| x l Hs IH Hall]; intros Hnd; [constructor |].
  apply NoDup_cons in Hnd as [Hx Hnd].
  constructor; [apply IH, Hnd |].
  rewrite Forall_forall in Hall |- *. intros y Hy.
  specialize (Hall y Hy). unfold int_desc in Hall.
  assert (y <> x) by (intros ->; contradiction). lia.
Qed.

#[local] Instance int_desc_transitive : Transitive int_desc.
Proof. unfold int_desc. intros x y z Hxy Hyz. lia. Qed.

#[local] Instance int_desc_is_total : Total int_desc.
Proof. unfold int_desc. intros x y. lia. Qed.

Lemma SupportedVersions_elements (m : gset Z) :
  SupportedVersions m ≡ₚ elements m.
Proof.
  unfold SupportedVersions, SupportedVersions_from.
  apply merge_sort_Permutation.
Qed.

(** X9.  [SupportedVersions] returns each supported version once, and no
    other, in strictly descending order. *)
Theorem SupportedVersions_sorted (m : gset Z) :
  (forall v, v ∈ SupportedVersions m <-> v ∈ m) /\
  StronglySorted (fun x y => y < x) (SupportedVersions m) /\
  length (SupportedVersions m) = size m.
Proof.
  pose proof (SupportedVersions_elements m) as Hp.
  repeat apply conj.
  - intros v. rewrite Hp. apply elem_of_elements.
  - apply StronglySorted_strict.
    + unfold SupportedVersions, SupportedVersions_from.
      apply StronglySorted_merge_sort; apply _.
    + rewrite Hp. apply NoDup_elements.
  - rewrite Hp. reflexivity.
Qed.

Lemma spdy_token_inj (v w : Z) : spdy_token v = spdy_token w -> v = w.
Proof.
  unfold spdy_token. simpl. intros H. injection H as H.
  apply pretty_Z_inj, H.
Qed.

(** X10.  [NpnStrings] has one element per supported version and one more;
    the token of a version is in it exactly if the version is supported;
    [http/1.1] is its last element and is no version's token. *)
Theorem NpnStrings_tokens (m : gset Z) :
  length (NpnStrings m) = S (size m) /\
  (forall v, spdy_token v ∈ NpnStrings m <-> v ∈ m) /\
  last (NpnStrings m) = Some "http/1.1" /\
  (forall v, spdy_token v <> "http/1.1").
Proof.
  pose proof (SupportedVersions_elements m) as Hp.
  assert (Hmem : forall v, v ∈ SupportedVersions m <-> v ∈ m)
    by (intros v; rewrite Hp; apply elem_of_elements).
  assert (Hlen : length (SupportedVersions m) = size m)
    by (rewrite Hp; reflexivity).
  assert (Hne : forall v, spdy_token v <> "http/1.1")
    by (intros v; unfold spdy_token; simpl; discriminate).
  unfold NpnStrings. repeat apply conj.
  - rewrite length_app, length_fmap, Hlen. simpl. lia.
  - intros v. rewrite elem_of_app, list_elem_of_fmap, <- Hmem. split.
    + intros [(w & Heq & Hw) | Hin].
      * apply spdy_token_inj in Heq. subst w. exact Hw.
      * apply list_elem_of_singleton in Hin. contradiction (Hne v Hin).
    + intros Hv. left. exists v. split; [reflexivity | exact Hv].
  - apply last_snoc.
  - exact Hne.
Qed.

End VersionSwitches.

(** ** Setting up flow control *)

Section FlowControlSetup.

Import Flow Sample FlowView.

(** X11.  A second [AddFlowControl] changes nothing, whatever the policy
    and whether or not the first call could read the connection's window:
    the first call always leaves [flow] set. *)
Theorem AddFlowControl_idempotent (f g : FlowControl) (s : streamV3) :
  serverStreamV3_AddFlowControl g (serverStreamV3_AddFlowControl f s)
  = serverStreamV3_AddFlowControl f s /\
  pushStreamV3_AddFlowControl g (pushStreamV3_AddFlowControl f s)
  = pushStreamV3_AddFlowControl f s /\
  clientStreamV3_AddFlowControl g (clientStreamV3_AddFlowControl f s)
  = clientStreamV3_AddFlowControl f s.
Proof.
  repeat apply conj.
  - unfold serverStreamV3_AddFlowControl at 1.
    assert (H : is_Some (flow (serverStreamV3_AddFlowControl f s))).
    { unfold serverStreamV3_AddFlowControl.
      destruct (flow s) eqn:Hf; [rewrite Hf; eauto |].
      destruct (Conn_InitialWindowSize (conn s)); simpl; eauto. }
    destruct H as [fl ->]. reflexivity.
  - unfold pushStreamV3_AddFlowControl at 1.
    assert (H : is_Some (flow (pushStreamV3_AddFlowControl f s))).
    { unfold pushStreamV3_AddFlowControl.
      destruct (flow s) eqn:Hf; [rewrite Hf; eauto |].
      destruct (Conn_InitialWindowSize (conn s)); simpl; eauto. }
    destruct H as [fl ->]. reflexivity.
  - unfold clientStreamV3_AddFlowControl at 1.
    assert (H : is_Some (flow (clientStreamV3_AddFlowControl f s))).
    { unfold clientStreamV3_AddFlowControl.
      destruct (flow s) eqn:Hf; [rewrite Hf; eauto |].
      destruct (Conn_InitialWindowSize (conn s)); simpl; eauto. }
    destruct H as [fl ->]. reflexivity.
Qed.

Lemma Write_closed (data : list byte) (f : flowControl) :
  data <> [] -> buffer f = None \/ stream f = None ->
  Write data f = Done (f, (0, Some Stream_closed_error)).
Proof.
  intros Hne Hnil. unfold Write.
  assert (Hlen : (len data =? 0) = false).
  { apply Z.eqb_neq. unfold len. destruct data; [contradiction | simpl; lia]. }
  rewrite Hlen.
  destruct Hnil as [-> | ->]; [reflexivity |].
  destruct (buffer f); reflexivity.
Qed.

(** X12.  If the connection cannot report its initial window when
    [AddFlowControl] is called, the stream is left with the zero
    [flowControl]; every write of data to it fails with "Stream closed" and
    sends nothing. *)
Theorem AddFlowControl_conn_error
    (f : FlowControl) (s : streamV3) (msg : string) (data : list byte) :
  flow s = None -> Conn_InitialWindowSize (conn s) = Err msg -> data <> [] ->
  flow (serverStreamV3_AddFlowControl f s) = Some new_flowControl /\
  flow (pushStreamV3_AddFlowControl f s) = Some new_flowControl /\
  flow (clientStreamV3_AddFlowControl f s) = Some new_flowControl /\
  Write data new_flowControl = Done (new_flowControl, (0, Some Stream_closed_error)).
Proof.
  intros Hflow Herr Hne.
  unfold serverStreamV3_AddFlowControl, pushStreamV3_AddFlowControl,
    clientStreamV3_AddFlowControl.
  rewrite Hflow, Herr. simpl. repeat apply conj; try reflexivity.
  apply Write_closed; [exact Hne | left; reflexivity].
Qed.

Lemma AddFlowControl_conn_error_witness :
  flow (serverStreamV3_AddFlowControl (DefaultFlowControl 65536)
          {| conn := {| Conn_InitialWindowSize := Err "closed" |};
             stream_streamID := 1; stream_output := Some []; flow := None |})
  = Some new_flowControl /\
  Write [Byte.x01] new_flowControl
  = Done (new_flowControl, (0, Some Stream_closed_error)).
Proof.
  destruct (AddFlowControl_conn_error (DefaultFlowControl 65536)
              {| conn := {| Conn_InitialWindowSize := Err "closed" |};
                 stream_streamID := 1; stream_output := Some []; flow := None |}
              "closed" [Byte.x01]) as (H1 & _ & _ & H4);
    [reflexivity | reflexivity | discriminate |].
  split; [exact H1 | exact H4].
Defined.

(** X19.  [Write] of no data returns [(0, nil)] and changes nothing; [Write]
    of data on a flow control whose buffer or stream is [nil], as after
    [Close], returns [(0, "Stream closed")], changes nothing and sends
    nothing. *)
Theorem Write_nothing_or_closed (data : list byte) (f : flowControl) :
  Write [] f = Done (f, (0, None)) /\
  (data <> [] -> buffer f = None \/ stream f = None ->
     Write data f = Done (f, (0, Some Stream_closed_error))) /\
  (data <> [] ->
     Write data (Close f) = Done (Close f, (0, Some Stream_closed_error))).
Proof.
  repeat apply conj.
  - reflexivity.
  - apply Write_closed.
  - intros Hne. apply Write_closed; [exact Hne | left; reflexivity].
Qed.

Lemma Write_nothing_or_closed_witness :
  Write [Byte.x01] (Close (stalled 10 [[Byte.x02]]))
  = Done (Close (stalled 10 [[Byte.x02]]), (0, Some Stream_closed_error)).
Proof.
  destruct (Write_nothing_or_closed [Byte.x01] (stalled 10 [[Byte.x02]]))
    as (_ & _ & H).
  apply H. discriminate.
Defined.

End FlowControlSetup.

(** ** CheckInitialWindow *)

Section InitialWindowChanges.

Import Flow Sample FlowView.

Lemma CheckInitialWindow_settled (f : flowControl) :
  settled f -> CheckInitialWindow f = f.
Proof.
  unfold settled, conn_window, CheckInitialWindow. intros H.
  destruct (stream f) as [st |]; [| reflexivity].
  destruct (Stream_Conn st) as [c |]; [| reflexivity].
  destruct (Conn_InitialWindowSize c) as [w | msg]; [| reflexivity].
  rewrite (H w eq_refl), Z.eqb_refl. reflexivity.
Qed.

(** What [CheckInitialWindow] leaves alone. *)
Lemma CheckInitialWindow_keeps (f : flowControl) :
  stream (CheckInitialWindow f) = stream f /\
  streamID (CheckInitialWindow f) = streamID f /\
  output (CheckInitialWindow f) = output f /\
  sent (CheckInitialWindow f) = sent f /\
  buffer (CheckInitialWindow f) = buffer f /\
  initialWindowThere (CheckInitialWindow f) = initialWindowThere f /\
  transferWindowThere (CheckInitialWindow f) = transferWindowThere f /\
  flowControl' (CheckInitialWindow f) = flowControl' f.
Proof.
  unfold CheckInitialWindow.
  destruct (stream f) as [st |] eqn:Hst;
    [| repeat apply conj; (exact Hst || reflexivity)].
  destruct (Stream_Conn st) as [c |];
    [| repeat apply conj; (exact Hst || reflexivity)].
  destruct (Conn_InitialWindowSize c) as [w | msg];
    [| repeat apply conj; (exact Hst || reflexivity)].
  destruct (initialWindow f =? w);
    [repeat apply conj; (exact Hst || reflexivity) |].
  destruct (initialWindow f >? w); [| destruct (initialWindow f <? w)];
    simpl; destruct (_ <=? 0); repeat apply conj; (exact Hst || reflexivity).
Qed.

(** X13.  After [CheckInitialWindow] the flow control has the connection's
    initial window, so that a second call changes nothing more; the call
    never clears [constrained], sends nothing and leaves the buffer and the
    count of bytes sent as they are. *)
Theorem CheckInitialWindow_settles (f : flowControl) :
  settled (CheckInitialWindow f) /\
  CheckInitialWindow (CheckInitialWindow f) = CheckInitialWindow f /\
  (constrained f = true -> constrained (CheckInitialWindow f) = true) /\
  output (CheckInitialWindow f) = output f /\
  buffer (CheckInitialWindow f) = buffer f /\
  sent (CheckInitialWindow f) = sent f.
Proof.
  assert (Hs : settled (CheckInitialWindow f)).
  { unfold settled, conn_window.
    destruct (CheckInitialWindow_keeps f) as (-> & _).
    unfold CheckInitialWindow.
    destruct (stream f) as [st |]; [| discriminate].
    destruct (Stream_Conn st) as [c |]; [| discriminate].
    destruct (Conn_InitialWindowSize c) as [w | msg]; [| discriminate].
    intros w' [= <-].
    destruct (Z.eqb_spec (initialWindow f) w) as [Heq | Hne]; [exact Heq |].
    reflexivity. }
  destruct (CheckInitialWindow_keeps f) as (_ & _ & Ho & Hse & Hb & _).
  repeat apply conj; try assumption.
  - apply CheckInitialWindow_settled, Hs.
  - intros Hc. unfold CheckInitialWindow.
    destruct (stream f) as [st |]; [| exact Hc].
    destruct (Stream_Conn st) as [c |]; [| exact Hc].
    destruct (Conn_InitialWindowSize c) as [w | msg]; [| exact Hc].
    destruct (initialWindow f =? w); [exact Hc |].
    destruct (initialWindow f >? w); [| destruct (initialWindow f <? w)];
      simpl; destruct (_ <=? 0); simpl; auto.
Qed.

Lemma CheckInitialWindow_settles_witness :
  constrained
    (CheckInitialWindow
       (set_stream (Some {| Stream_Conn := Some (conn_with 4) |})
          (stalled 10 []))) = true.
Proof.
  destruct (CheckInitialWindow_settles
              (set_stream (Some {| Stream_Conn := Some (conn_with 4) |})
                 (stalled 10 []))) as (_ & _ & H & _).
  apply H. reflexivity.
Defined.

(** X14.  When the connection's initial window [w] is found to be smaller
    than the one flow control started with, the transfer window becomes
    [w - sent] computed in [uint32]: it is [w - sent] if no more than [w]
    bytes were sent, and wraps to [2^32 + w - sent], a positive number, if
    more were; it is never negative, and [constrained] is set only if it is
    [0]. *)
Theorem CheckInitialWindow_shrink (f : flowControl) (w : Z) :
  conn_window f = Some w -> is_uint32 w -> is_uint32 (sent f) ->
  w < initialWindow f ->
  initialWindow (CheckInitialWindow f) = w /\
  transferWindow (CheckInitialWindow f) = (w - sent f) mod 2 ^ 32 /\
  0 <= transferWindow (CheckInitialWindow f) /\
  (sent f <= w -> transferWindow (CheckInitialWindow f) = w - sent f) /\
  (w < sent f ->
     transferWindow (CheckInitialWindow f) = 2 ^ 32 + w - sent f /\
     constrained (CheckInitialWindow f) = constrained f).
Proof.
  intros Hw Hrw Hrs Hlt.
  assert (Htw : int64 (uint32 (w - sent f)) = (w - sent f) mod 2 ^ 32).
  { apply int64_id, uint32_is_int64, uint32_range. }
  set (m := (w - sent f) mod 2 ^ 32) in *.
  assert (Hcheck : CheckInitialWindow f
                   = set_initialWindow w
                       (if m <=? 0
                        then set_constrained true (set_transferWindow m f)
                        else set_transferWindow m f)).
  { unfold conn_window in Hw. unfold CheckInitialWindow.
    destruct (stream f) as [st |]; [| discriminate].
    destruct (Stream_Conn st) as [c |]; [| discriminate].
    destruct (Conn_InitialWindowSize c) as [w' | msg]; [| discriminate].
    injection Hw as ->.
    destruct (Z.eqb_spec (initialWindow f) w); [lia |].
    destruct (Z.gtb_spec (initialWindow f) w); [| lia].
    rewrite Htw. reflexivity. }
  assert (Hpos : 0 <= m < 2 ^ 32) by (apply Z.mod_pos_bound; lia).
  assert (Hsmall : sent f <= w -> m = w - sent f).
  { intros Hle. unfold is_uint32 in *. apply Z.mod_small. lia. }
  assert (Hwrap : w < sent f -> m = 2 ^ 32 + w - sent f).
  { intros Hgt. unfold is_uint32 in *. unfold m.
    replace (w - sent f) with (2 ^ 32 + w - sent f + (-1) * 2 ^ 32) by lia.
    rewrite Z_mod_plus_full. apply Z.mod_small. lia. }
  rewrite Hcheck. unfold is_uint32 in *.
  destruct (Z.leb_spec m 0) as [Hz | Hnz]; simpl;
    repeat apply conj; try reflexivity; try lia; try assumption;
    intros Hgt; specialize (Hwrap Hgt);
    first [lia | split; [exact Hwrap | reflexivity]].
Qed.

Lemma CheckInitialWindow_shrink_witness :
  transferWindow
    (CheckInitialWindow
       (set_stream (Some {| Stream_Conn := Some (conn_with 4) |})
          (stalled 65526 []))) = 4294967290.
Proof.
  destruct (CheckInitialWindow_shrink
              (set_stream (Some {| Stream_Conn := Some (conn_with 4) |})
                 (stalled 65526 [])) 4) as (_ & _ & _ & _ & H).
  - reflexivity.
  - unfold is_uint32. lia.
  - unfold is_uint32. vm_compute. split; [discriminate | reflexivity].
  - simpl. lia.
  - apply H. vm_compute. reflexivity.
Defined.



End InitialWindowChanges.

(** ** Flush and the transfer window *)

Section FlushWindow.

Import Flow Sample FlowView.

Ltac flow_simpl :=
  cbn [stream streamID output initialWindow transferWindow sent buffer
       constrained initialWindowThere transferWindowThere flowControl'
       set_stream set_streamID set_output set_initialWindow
       set_transferWindow set_sent set_buffer set_constrained
       set_initialWindowThere set_transferWindowThere set_flowControl'].




(** The state after [CheckInitialWindow] has the connection's window. *)
Lemma CheckInitialWindow_is_settled (f : flowControl) :
  settled (CheckInitialWindow f).
Proof.
  unfold settled, conn_window.
  destruct (CheckInitialWindow_keeps f) as (-> & _).
  unfold CheckInitialWindow.
  destruct (stream f) as [st |]; [| discriminate].
  destruct (Stream_Conn st) as [c |]; [| discriminate].
  destruct (Conn_InitialWindowSize c) as [w | msg]; [| discriminate].
  intros w' [= <-].
  destruct (Z.eqb_spec (initialWindow f) w) as [Heq | Hne]; [exact Heq |].
  reflexivity.
Qed.

Lemma CheckInitialWindow_idem (f : flowControl) :
  CheckInitialWindow (CheckInitialWindow f) = CheckInitialWindow f.
Proof. apply CheckInitialWindow_settled, CheckInitialWindow_is_settled. Qed.

(** [Flush] starts with [CheckInitialWindow]: running that first changes
    nothing. *)
Lemma Flush_after_check (f : flowControl) :
  Flush (CheckInitialWindow f) = Flush f.
Proof. unfold Flush. rewrite CheckInitialWindow_idem. reflexivity. Qed.

Lemma Flush_empty_buffer_settled (f : flowControl) (q : list Frame) :
  settled f -> constrained f = true ->
  0 < transferWindow f -> is_int64 (transferWindow f) ->
  buffer f = None \/ buffer f = Some [] -> output f = Some q ->
  Flush f
  = Done (set_output (Some (q ++ [dataFrameV3 (streamID f) []]))
            (set_constrained false f)).
Proof.
  intros Hs Hcon Hpos H64 Hbuf Hq.
  unfold Flush. rewrite (CheckInitialWindow_settled f Hs), Hcon.
  simpl negb. simpl orb.
  destruct (Z.eqb_spec (transferWindow f) 0) as [H0 | _]; [lia |].
  destruct (Z.ltb_spec (transferWindow f) 0) as [Hlt | _]; [lia |].
  assert (Hloop : Flush_loop (length (default [] (buffer f))) 0
                    (default [] (buffer f)) [] (transferWindow f)
                  = Some ([], [], transferWindow f))
    by (destruct Hbuf as [-> | ->]; reflexivity).
  rewrite Hloop. cbv zeta. flow_simpl.
  change (len (@nil byte)) with 0.
  rewrite Z.sub_0_r, (int64_id _ H64).
  destruct (Z.gtb_spec (transferWindow f) 0) as [_ | Hle]; [| lia].
  unfold send. flow_simpl. rewrite Hq.
  destruct f as [st sid o iw tw se b c iwt twt fc].
  simpl in *. destruct Hbuf as [-> | ->]; reflexivity.
Qed.

(** X17.  Let [f0] be the state [CheckInitialWindow] makes of [f], with
    which [Flush] starts.  If [f0] is constrained and its window is
    positive, nothing is buffered (the buffer is empty or [nil]) and there is
    an output channel, then [Flush] sends one DATA frame with no data, and
    the state it leaves is [f0] with [constrained] cleared: the window is the
    window of [f0]. *)
Theorem Flush_empty_buffer (f : flowControl) (q : list Frame) :
  constrained (CheckInitialWindow f) = true ->
  0 < transferWindow (CheckInitialWindow f) ->
  is_int64 (transferWindow (CheckInitialWindow f)) ->
  buffer f = None \/ buffer f = Some [] -> output f = Some q ->
  Flush f
  = Done (set_output (Some (q ++ [dataFrameV3 (streamID f) []]))
            (set_constrained false (CheckInitialWindow f))) /\
  transferWindow (set_output (Some (q ++ [dataFrameV3 (streamID f) []]))
                    (set_constrained false (CheckInitialWindow f)))
  = transferWindow (CheckInitialWindow f).
Proof.
  intros Hcon Hpos H64 Hbuf Hq.
  destruct (CheckInitialWindow_keeps f) as (_ & Hid & Hout & _ & Hb & _).
  split; [| reflexivity].
  rewrite <- Flush_after_check, <- Hid.
  apply Flush_empty_buffer_settled; try assumption.
  - apply CheckInitialWindow_is_settled.
  - rewrite Hb. exact Hbuf.
  - rewrite Hout. exact Hq.
Qed.

Lemma Flush_empty_buffer_witness :
  Flush (set_stream (Some {| Stream_Conn := Some (conn_with 65546) |})
           (stalled 10 []))
  = Done (set_output (Some ([] ++ [dataFrameV3 1 []]))
            (set_constrained false
               (set_initialWindow 65546
                  (set_transferWindow 20
                     (set_stream (Some {| Stream_Conn := Some (conn_with 65546) |})
                        (stalled 10 [])))))).
Proof.
  apply (Flush_empty_buffer
           (set_stream (Some {| Stream_Conn := Some (conn_with 65546) |})
              (stalled 10 [])) []).
  - reflexivity.
  - reflexivity.
  - unfold is_int64. vm_compute. split; [discriminate | reflexivity].
  - right. reflexivity.
  - reflexivity.
Defined.

Lemma Flush_single_chunk_settled
    (f : flowControl) (chunk : list byte) (q : list Frame) :
  settled f -> constrained f = true ->
  0 < transferWindow f -> is_int64 (transferWindow f) ->
  buffer f = Some [chunk] -> output f = Some q ->
  exists out f',
    Flush f = Done f' /\
    output f' = Some (q ++ [dataFrameV3 (streamID f) out]) /\
    out ++ buffered f' = chunk /\
    len out = Z.min (len chunk) (transferWindow f) /\
    transferWindow f' = transferWindow f - len out /\
    constrained f' = negb (len chunk <? transferWindow f).
Proof.
  intros Hs Hcon Hpos H64 Hbuf Hq.
  pose proof (Flush_single_chunk f chunk q (CheckInitialWindow_settled f Hs)
                Hcon Hpos H64 Hbuf Hq) as HF.
  cbv zeta in HF.
  set (out := take (Z.to_nat (transferWindow f)) chunk) in *.
  set (rest := drop (Z.to_nat (transferWindow f)) chunk) in *.
  assert (Hlen : len out = Z.min (len chunk) (transferWindow f)).
  { unfold len, out. rewrite length_take. lia. }
  exists out. eexists. split; [exact HF |].
  unfold buffered.
  destruct (Z.leb_spec (len chunk) (transferWindow f)) as [Hle | Hgt].
  - assert (Hrest : rest = []) by (unfold rest, len in *; apply drop_ge; lia).
    assert (Hall : out = chunk) by (unfold out, len in *; apply take_ge; lia).
    destruct (Z.gtb_spec (transferWindow f - len out) 0) as [Hw | Hw];
      flow_simpl; simpl; repeat apply conj; try reflexivity; try exact Hlen.
    + rewrite app_nil_r. exact Hall.
    + destruct (Z.ltb_spec (len chunk) (transferWindow f)); [reflexivity | lia].
    + rewrite app_nil_r. exact Hall.
    + rewrite Hcon.
      destruct (Z.ltb_spec (len chunk) (transferWindow f)); [lia | reflexivity].
  - destruct (Z.gtb_spec (transferWindow f - len out) 0) as [Hw | Hw]; [lia |].
    flow_simpl. simpl. repeat apply conj; try reflexivity; try exact Hlen.
    + rewrite app_nil_r. apply take_drop.
    + rewrite Hcon.
      destruct (Z.ltb_spec (len chunk) (transferWindow f)); [lia | reflexivity].
Qed.

(** X18.  Let [f0] be the state [CheckInitialWindow] makes of [f], with
    which [Flush] starts.  If [f0] is constrained and its window [w] is
    positive, a single chunk is buffered and there is an output channel,
    then [Flush] sends, in one DATA frame, the longest prefix of the chunk
    that fits [w] and keeps the rest: the bytes sent followed by the bytes
    still buffered are the chunk; the window ends at [w] less the bytes
    sent; and [constrained] is cleared exactly if the chunk is shorter than
    [w]. *)
Theorem Flush_single_chunk_in_order
    (f : flowControl) (chunk : list byte) (q : list Frame) :
  constrained (CheckInitialWindow f) = true ->
  0 < transferWindow (CheckInitialWindow f) ->
  is_int64 (transferWindow (CheckInitialWindow f)) ->
  buffer f = Some [chunk] -> output f = Some q ->
  exists out f',
    Flush f = Done f' /\
    output f' = Some (q ++ [dataFrameV3 (streamID f) out]) /\
    out ++ buffered f' = chunk /\
    len out = Z.min (len chunk) (transferWindow (CheckInitialWindow f)) /\
    transferWindow f' = transferWindow (CheckInitialWindow f) - len out /\
    constrained f' = negb (len chunk <? transferWindow (CheckInitialWindow f)).
Proof.
  intros Hcon Hpos H64 Hbuf Hq.
  destruct (CheckInitialWindow_keeps f) as (_ & Hid & Hout & _ & Hb & _).
  rewrite <- Flush_after_check, <- Hid.
  apply Flush_single_chunk_settled; try assumption.
  - apply CheckInitialWindow_is_settled.
  - rewrite Hb. exact Hbuf.
  - rewrite Hout. exact Hq.
Qed.

Lemma Flush_single_chunk_in_order_witness :
  exists out f',
    Flush (set_stream (Some {| Stream_Conn := Some (conn_with 65538) |})
             (stalled 2 [[Byte.x01; Byte.x02; Byte.x03; Byte.x04;
                          Byte.x05; Byte.x06]]))
    = Done f' /\
    output f' = Some ([] ++ [dataFrameV3 1 out]) /\
    out ++ buffered f'
    = [Byte.x01; Byte.x02; Byte.x03; Byte.x04; Byte.x05; Byte.x06] /\
    len out = Z.min 6 4 /\
    transferWindow f' = 4 - len out.
Proof.
  destruct (Flush_single_chunk_in_order
              (set_stream (Some {| Stream_Conn := Some (conn_with 65538) |})
                 (stalled 2 [[Byte.x01; Byte.x02; Byte.x03; Byte.x04;
                              Byte.x05; Byte.x06]]))
              [Byte.x01; Byte.x02; Byte.x03; Byte.x04; Byte.x05; Byte.x06] [])
    as (out & f' & H1 & H2 & H3 & H4 & H5 & _).
  - reflexivity.
  - reflexivity.
  - unfold is_int64. vm_compute. split; [discriminate | reflexivity].
  - reflexivity.
  - reflexivity.
  - exists out, f'. repeat apply conj; assumption.
Defined.

End FlushWindow.

(** ** Write *)

Section WriteBehaviour.

Import Flow Sample FlowView.

Ltac flow_simpl :=
  cbn [stream streamID output initialWindow transferWindow sent buffer
       constrained initialWindowThere transferWindowThere flowControl'
       set_stream set_streamID set_output set_initialWindow
       set_transferWindow set_sent set_buffer set_constrained
       set_initialWindowThere set_transferWindowThere set_flowControl'].

Lemma len_nonempty (data : list byte) : data <> [] -> (len data =? 0) = false.
Proof.
  intros Hne. apply Z.eqb_neq. unfold len.
  destruct data; [contradiction | simpl; lia].
Qed.

(** On a flow control whose buffer and stream are not [nil], [Write] of
    data starts with [CheckInitialWindow]: running that first changes
    nothing. *)
Lemma Write_after_check (data : list byte) (f : flowControl) :
  data <> [] -> is_Some (buffer f) -> is_Some (stream f) ->
  Write data (CheckInitialWindow f) = Write data f.
Proof.
  intros Hne [b Hb] [st Hst].
  destruct (CheckInitialWindow_keeps f) as (Hst0 & _ & _ & _ & Hb0 & _).
  unfold Write. rewrite (len_nonempty data Hne), Hb0, Hst0, Hb, Hst.
  rewrite CheckInitialWindow_idem. reflexivity.
Qed.

Lemma Write_zero_window_settled
    (data : list byte) (f : flowControl) (b : list (list byte)) (st : Stream) :
  settled f -> transferWindow f = 0 ->
  buffer f = Some b -> stream f = Some st ->
  data <> [] -> is_uint32 (len data) -> is_uint32 (sent f) ->
  Write data f
  = Done (set_constrained true (set_buffer (Some (b ++ [data])) f),
          (len data, None)).
Proof.
  intros Hs Htw Hb Hst Hne Hlen Hsent.
  unfold Write. rewrite (len_nonempty data Hne), Hb, Hst.
  rewrite (CheckInitialWindow_settled f Hs).
  assert (Hpre : (if constrained f then Flush f else Done f) = Done f).
  { destruct (constrained f) eqn:Hcon; [| reflexivity].
    unfold Flush. rewrite (CheckInitialWindow_settled f Hs), Hcon, Htw.
    reflexivity. }
  rewrite Hpre. simpl obind.
  assert (HW : window_of f = 0) by (unfold window_of; rewrite Htw; reflexivity).
  rewrite HW, (uint32_id _ Hlen).
  assert (Hpos : 0 < len data).
  { pose proof (len_nonempty data Hne) as Hz. apply Z.eqb_neq in Hz.
    unfold len in *. lia. }
  destruct (Z.gtb_spec (len data) 0) as [_ | Hle]; [| lia].
  flow_simpl. rewrite Hb, Htw, Z.add_0_r, (uint32_id _ Hsent).
  simpl.
  destruct f as [s0 sid o iw tw se bf c iwt twt fc]. simpl in *. subst.
  reflexivity.
Qed.

(** X20.  Let [f0] be the state [CheckInitialWindow] makes of [f], with
    which [Write] starts.  If the buffer and the stream are not [nil], the
    window of [f0] is [0] and data of length [N] (a [uint32], not [0]) is
    written, then [Write] sends nothing, with or without an output channel,
    and returns [(N, nil)]; the state it leaves is [f0] with the whole slice
    appended to the buffer as one chunk and [constrained] set. *)
Theorem Write_zero_window
    (data : list byte) (f : flowControl) (b : list (list byte)) (st : Stream) :
  transferWindow (CheckInitialWindow f) = 0 ->
  buffer f = Some b -> stream f = Some st ->
  data <> [] -> is_uint32 (len data) -> is_uint32 (sent f) ->
  Write data f
  = Done (set_constrained true
            (set_buffer (Some (b ++ [data])) (CheckInitialWindow f)),
          (len data, None)) /\
  output (set_constrained true
            (set_buffer (Some (b ++ [data])) (CheckInitialWindow f)))
  = output f.
Proof.
  intros Htw Hb Hst Hne Hlen Hsent.
  destruct (CheckInitialWindow_keeps f) as (Hst0 & _ & Hout & Hse & Hb0 & _).
  split; [| exact Hout].
  rewrite <- Write_after_check by (try exact Hne; rewrite ?Hb, ?Hst; eauto).
  apply (Write_zero_window_settled data (CheckInitialWindow f) b st);
    try assumption.
  - apply CheckInitialWindow_is_settled.
  - rewrite Hb0. exact Hb.
  - rewrite Hst0. exact Hst.
  - rewrite Hse. exact Hsent.
Qed.

Lemma Write_zero_window_witness :
  Write [Byte.x01; Byte.x02]
    (set_stream (Some {| Stream_Conn := Some (conn_with 4) |})
       (stalled 65532 [[Byte.x09]]))
  = Done (set_constrained true
            (set_buffer (Some ([[Byte.x09]] ++ [[Byte.x01; Byte.x02]]))
               (set_initialWindow 4
                  (set_transferWindow 0
                     (set_stream (Some {| Stream_Conn := Some (conn_with 4) |})
                        (stalled 65532 [[Byte.x09]]))))),
          (len [Byte.x01; Byte.x02], None)).
Proof.
  apply (Write_zero_window [Byte.x01; Byte.x02]
           (set_stream (Some {| Stream_Conn := Some (conn_with 4) |})
              (stalled 65532 [[Byte.x09]]))
           [[Byte.x09]] {| Stream_Conn := Some (conn_with 4) |}).
  - reflexivity.
  - reflexivity.
  - reflexivity.
  - discriminate.
  - unfold is_uint32. vm_compute. split; [discriminate | reflexivity].
  - unfold is_uint32. vm_compute. split; [discriminate | reflexivity].
Defined.

Lemma Write_exceeding_settled
    (data : list byte) (f : flowControl)
    (b : list (list byte)) (st : Stream) (q : list Frame) :
  settled f -> constrained f = false ->
  buffer f = Some b -> stream f = Some st -> output f = Some q ->
  is_uint32 (len data) -> is_int64 (transferWindow f) ->
  window_of f < len data ->
  exists frs rest f',
    Write data f = Done (f', (len data, None)) /\
    output f' = Some (q ++ frs) /\
    buffer f' = Some (b ++ [rest]) /\
    data_sent frs ++ rest = data /\
    len (data_sent frs) = window_of f /\
    constrained f' = true /\
    transferWindow f' = transferWindow f - window_of f /\
    sent f' = uint32 (sent f + window_of f).
Proof.
  intros Hs Hcon Hb Hst Hq Hlen H64 Hexc.
  pose proof (Write_exceeds data f b st q Hb Hst Hq
                (CheckInitialWindow_settled f Hs) Hcon Hlen Hexc) as HW.
  cbv zeta in HW.
  assert (HWr : 0 <= window_of f < 2 ^ 32).
  { unfold window_of. destruct (transferWindow f <? 0); [lia |].
    apply uint32_range. }
  assert (HWle : window_of f <= Z.max 0 (transferWindow f)).
  { unfold window_of.
    destruct (Z.ltb_spec (transferWindow f) 0) as [Hn | Hp]; [lia |].
    unfold uint32. pose proof (Z.mod_le (transferWindow f) (2 ^ 32)). lia. }
  assert (Htw : int64 (transferWindow f - int64 (window_of f))
                = transferWindow f - window_of f).
  { rewrite (int64_id (window_of f)) by (unfold is_int64; lia).
    apply int64_id. unfold is_int64 in *. lia. }
  assert (Htake : len (take (Z.to_nat (window_of f)) data) = window_of f).
  { unfold len in *. rewrite length_take. lia. }
  destruct (Z.eqb_spec (window_of f) 0) as [H0 | Hn0].
  - exists [], (drop (Z.to_nat (window_of f)) data). eexists.
    split; [exact HW |]. flow_simpl. rewrite Hq, Htw, app_nil_r.
    repeat apply conj; try reflexivity; rewrite H0; reflexivity.
  - exists [dataFrameV3 (streamID f) (take (Z.to_nat (window_of f)) data)],
      (drop (Z.to_nat (window_of f)) data). eexists.
    split; [exact HW |]. flow_simpl. rewrite Htw.
    repeat apply conj; try reflexivity.
    + unfold data_sent. simpl. rewrite app_nil_r. apply take_drop.
    + unfold data_sent. simpl. rewrite app_nil_r. exact Htake.
Qed.

(** X21.  Let [f0] be the state [CheckInitialWindow] makes of [f], with
    which [Write] starts, and [W] the window [Write] reads from it.  If the
    buffer, the stream and the output channel are not [nil], [f0] is not
    constrained and the data is longer than [W], then [Write] returns
    [(N, nil)]; the bytes it sends, [W] of them, followed by the chunk it
    appends to the buffer are the slice written; [constrained] is set; the
    window goes down by [W] and the count of bytes sent up by [W]. *)
Theorem Write_exceeding_in_order
    (data : list byte) (f : flowControl)
    (b : list (list byte)) (st : Stream) (q : list Frame) :
  constrained (CheckInitialWindow f) = false ->
  buffer f = Some b -> stream f = Some st -> output f = Some q ->
  is_uint32 (len data) -> is_int64 (transferWindow (CheckInitialWindow f)) ->
  window_of (CheckInitialWindow f) < len data ->
  exists frs rest f',
    Write data f = Done (f', (len data, None)) /\
    output f' = Some (q ++ frs) /\
    buffer f' = Some (b ++ [rest]) /\
    data_sent frs ++ rest = data /\
    len (data_sent frs) = window_of (CheckInitialWindow f) /\
    constrained f' = true /\
    transferWindow f'
    = transferWindow (CheckInitialWindow f) - window_of (CheckInitialWindow f) /\
    sent f' = uint32 (sent f + window_of (CheckInitialWindow f)).
Proof.
  intros Hcon Hb Hst Hq Hlen H64 Hexc.
  destruct (CheckInitialWindow_keeps f) as (Hst0 & _ & Hout & Hse & Hb0 & _).
  assert (Hne : data <> []).
  { intros ->. unfold window_of, len in Hexc. simpl in Hexc.
    destruct (transferWindow (CheckInitialWindow f) <? 0); [lia |].
    pose proof (uint32_range (transferWindow (CheckInitialWindow f))) as Hr.
    unfold is_uint32 in Hr. lia. }
  rewrite <- Write_after_check by (try exact Hne; rewrite ?Hb, ?Hst; eauto).
  rewrite <- Hse.
  apply (Write_exceeding_settled data (CheckInitialWindow f) b st q);
    try assumption.
  - apply CheckInitialWindow_is_settled.
  - rewrite Hb0. exact Hb.
  - rewrite Hst0. exact Hst.
  - rewrite Hout. exact Hq.
Qed.

Lemma Write_exceeding_in_order_witness :
  exists frs rest f',
    Write [Byte.x01; Byte.x02; Byte.x03]
      (set_stream (Some {| Stream_Conn := Some (conn_with 65537) |})
         (set_constrained false (stalled 1 []))) = Done (f', (3, None)) /\
    output f' = Some ([] ++ frs) /\
    data_sent frs ++ rest = [Byte.x01; Byte.x02; Byte.x03] /\
    len (data_sent frs) = 2 /\
    transferWindow f' = 2 - 2.
Proof.
  destruct (Write_exceeding_in_order [Byte.x01; Byte.x02; Byte.x03]
              (set_stream (Some {| Stream_Conn := Some (conn_with 65537) |})
                 (set_constrained false (stalled 1 []))) []
              {| Stream_Conn := Some (conn_with 65537) |} [])
    as (frs & rest & f' & H1 & H2 & _ & H4 & H5 & _ & H7 & _).
  - reflexivity.
  - reflexivity.
  - reflexivity.
  - reflexivity.
  - unfold is_uint32. vm_compute. split; [discriminate | reflexivity].
  - unfold is_int64. vm_compute. split; [discriminate | reflexivity].
  - vm_compute. reflexivity.
  - exists frs, rest, f'. repeat apply conj; assumption.
Defined.

(** X26.  On a flow control whose buffer and stream are not [nil], a
    [Write] of data that returns at all returns [(N, nil)], whether the data
    was sent, buffered, or both. *)
Theorem Write_reports_full_length
    (data : list byte) (f f' : flowControl) (r : Z * option string) :
  data <> [] -> is_Some (buffer f) -> is_Some (stream f) ->
  Write data f = Done (f', r) -> r = (len data, None).
Proof.
  intros Hne [b Hb] [st Hst]. unfold Write.
  rewrite (len_nonempty data Hne), Hb, Hst. cbv zeta.
  destruct (if constrained (CheckInitialWindow f)
            then Flush (CheckInitialWindow f)
            else Done (CheckInitialWindow f)) as [f1 | | |];
    simpl; try discriminate.
  destruct (uint32 (len data) >? window_of f1).
  - destruct (len (take _ data) =? 0); [intros [= _ <-]; reflexivity |].
    destruct (send _ _); simpl; try discriminate.
    intros [= _ <-]. reflexivity.
  - rewrite (len_nonempty data Hne).
    destruct (send _ _); simpl; try discriminate.
    intros [= _ <-]. reflexivity.
Qed.

Lemma Write_reports_full_length_witness :
  (len [Byte.x01; Byte.x02], @None string) = (len [Byte.x01; Byte.x02], None).
Proof.
  apply (Write_reports_full_length [Byte.x01; Byte.x02]
           (stalled 0 [[Byte.x09]])
           (set_constrained true
              (set_buffer (Some ([[Byte.x09]] ++ [[Byte.x01; Byte.x02]]))
                 (stalled 0 [[Byte.x09]])))).
  - discriminate.
  - eexists. reflexivity.
  - eexists. reflexivity.
  - reflexivity.
Defined.

End WriteBehaviour.

(** ** Receive *)

Section ReceiveBehaviour.

Import Flow Sample FlowView.

Ltac flow_simpl :=
  cbn [stream streamID output initialWindow transferWindow sent buffer
       constrained initialWindowThere transferWindowThere flowControl'
       set_stream set_streamID set_output set_initialWindow
       set_transferWindow set_sent set_buffer set_constrained
       set_initialWindowThere set_transferWindowThere set_flowControl'].

(** X23.  The books of [Receive], for any policy, where the output channel
    and the policy are not [nil], the receive window less the bytes received
    does not leave [int64], and the delta the policy returns, added to it,
    does not either.  The frames sent are exactly: one RST_STREAM with
    RST_STREAM_FLOW_CONTROL_ERROR if the window was negative on entry, and
    then one WINDOW_UPDATE carrying the delta if the delta is not [0];
    nothing else, and all of them addressed to the stream.  The receive
    window ends at what it was, less the bytes received, plus the delta. *)
Theorem Receive_accounting
    (data : list byte) (f : flowControl) (q : list Frame) (fc : FlowControl) :
  output f = Some q -> flowControl' f = Some fc ->
  is_int64 (transferWindowThere f) ->
  let c := transferWindowThere f - len data in
  let delta := ReceiveData fc (streamID f) (initialWindowThere f) c in
  - 2 ^ 63 <= c -> is_uint32 delta -> c + delta < 2 ^ 63 ->
  exists frs f',
    Receive data f = Done f' /\
    output f' = Some (q ++ frs) /\
    transferWindowThere f'
    = transferWindowThere f - len data + window_updates frs /\
    window_updates frs = delta /\
    resets frs = (if transferWindowThere f <? 0 then 1%nat else 0%nat) /\
    Forall (fun fr => frame_stream fr = streamID f) frs /\
    frs = (if transferWindowThere f <? 0
           then [rstStreamFrameV3 (streamID f) RST_STREAM_FLOW_CONTROL_ERROR]
           else [])
          ++ (if delta =? 0 then []
              else [windowUpdateFrameV3 (streamID f) delta]) /\
    transferWindowThere f' = transferWindowThere f - len data + delta.
Proof.
  intros Hq Hfc H64 c delta Hc Hd Hsum.
  assert (Hlen : 0 <= len data) by (unfold len; lia).
  assert (Hc64 : int64 c = c)
    by (apply int64_id; unfold is_int64 in *; unfold c in *; lia).
  assert (Hd64 : int64 delta = delta) by (apply int64_id, uint32_is_int64, Hd).
  assert (Hs64 : int64 (c + delta) = c + delta)
    by (apply int64_id; unfold is_int64, is_uint32 in *; lia).
  unfold Receive, send. rewrite Hq.
  destruct (transferWindowThere f <? 0); simpl obind; flow_simpl;
    rewrite Hfc; fold c; rewrite Hc64; fold delta;
    destruct (Z.eqb_spec delta 0) as [H0 | Hn0]; simpl obind; flow_simpl.
  - exists [rstStreamFrameV3 (streamID f) RST_STREAM_FLOW_CONTROL_ERROR].
    eexists. split; [reflexivity |]. flow_simpl. simpl.
    repeat apply conj; try reflexivity; try (unfold c; lia).
    repeat constructor.
  - exists [rstStreamFrameV3 (streamID f) RST_STREAM_FLOW_CONTROL_ERROR;
            windowUpdateFrameV3 (streamID f) delta].
    eexists. split; [reflexivity |]. flow_simpl. simpl.
    rewrite Hd64, Hs64, <- app_assoc. simpl.
    repeat apply conj; try reflexivity; try (unfold c; lia).
    repeat constructor.
  - exists []. eexists. split; [reflexivity |]. flow_simpl. simpl.
    rewrite app_nil_r, Hq.
    repeat apply conj; try reflexivity; try (unfold c; lia). constructor.
  - exists [windowUpdateFrameV3 (streamID f) delta].
    rewrite Hq. simpl obind. flow_simpl.
    eexists. split; [reflexivity |]. flow_simpl. simpl.
    rewrite Hd64, Hs64.
    repeat apply conj; try reflexivity; try (unfold c; lia).
    repeat constructor.
Qed.

Lemma Receive_accounting_witness :
  exists frs f',
    Receive [Byte.x01] (receiving (-4)) = Done f' /\
    output f' = Some ([] ++ frs) /\
    transferWindowThere f' = -4 - 1 + window_updates frs /\
    window_updates frs = 4 /\ resets frs = 1%nat /\
    frs = [rstStreamFrameV3 (streamID (receiving (-4)))
             RST_STREAM_FLOW_CONTROL_ERROR;
           windowUpdateFrameV3 (streamID (receiving (-4))) 4] /\
    transferWindowThere f' = -1.
Proof.
  destruct (Receive_accounting [Byte.x01] (receiving (-4)) [] (fixed_grant 4))
    as (frs & f' & H1 & H2 & H3 & H4 & H5 & _ & H6 & H7).
  - reflexivity.
  - reflexivity.
  - unfold is_int64. simpl. lia.
  - vm_compute. discriminate.
  - unfold is_uint32. simpl. lia.
  - vm_compute. reflexivity.
  - exists frs, f'. repeat apply conj; assumption.
Defined.

Lemma ReceiveData_regrows (d sid W c : Z) :
  is_uint32 W -> W - 2 ^ 32 < c -> - 2 ^ 63 <= c ->
  DefaultFlowControl_ReceiveData d sid W c = if c <? W / 2 then W - c else 0.
Proof.
  intros HW Hlow Hc. unfold DefaultFlowControl_ReceiveData.
  rewrite (int64_id W) by (apply uint32_is_int64, HW).
  unfold is_uint32 in HW.
  rewrite Z.quot_div_nonneg by lia.
  assert (Hhalf : 0 <= W / 2 <= W)
    by (split; [apply Z.div_pos; lia | apply Z.div_le_upper_bound; lia]).
  destruct (Z.ltb_spec c (W / 2)) as [Hlt | Hge]; [| reflexivity].
  rewrite uint32_int64. apply Z.mod_small. lia.
Qed.

(** X24.  Under the default policy, where the output channel is not [nil],
    the receive window is between [0] and the initial size [W], and the
    difference from the window left after the data up to [W] is less than
    [2^32], so that it fits the [uint32] the policy returns: [Receive] sends
    no RST_STREAM; if the window left after the data is at least [W/2]
    nothing is sent; if it is less, one WINDOW_UPDATE for the whole
    difference to [W] is sent and the window is [W] again.  Either way the
    window ends between [W/2] and [W]. *)
Theorem Receive_default_policy
    (data : list byte) (f : flowControl) (q : list Frame) (d : Z) :
  output f = Some q -> flowControl' f = Some (DefaultFlowControl d) ->
  is_uint32 (initialWindowThere f) ->
  0 <= transferWindowThere f <= initialWindowThere f ->
  initialWindowThere f - (transferWindowThere f - len data) < 2 ^ 32 ->
  let W := initialWindowThere f in
  let c := transferWindowThere f - len data in
  exists f',
    Receive data f = Done f' /\
    W / 2 <= transferWindowThere f' <= W /\
    (W / 2 <= c -> output f' = Some q /\ transferWindowThere f' = c) /\
    (c < W / 2 ->
       output f' = Some (q ++ [windowUpdateFrameV3 (streamID f) (W - c)]) /\
       transferWindowThere f' = W).
Proof.
  intros Hq Hfc HW Hwin Hfit W c.
  assert (Hlen : 0 <= len data) by (unfold len; lia).
  unfold is_uint32 in HW. fold W in HW, Hwin, Hfit.
  assert (Hhalf : 0 <= W / 2 <= W)
    by (split; [apply Z.div_pos; lia | apply Z.div_le_upper_bound; lia]).
  assert (Hc64 : int64 c = c)
    by (apply int64_id; unfold is_int64; unfold c; lia).
  assert (Hdelta : DefaultFlowControl_ReceiveData d (streamID f) W c
                   = if c <? W / 2 then W - c else 0).
  { apply ReceiveData_regrows; unfold is_uint32; unfold c; lia. }
  unfold Receive.
  destruct (Z.ltb_spec (transferWindowThere f) 0) as [Hneg | _]; [lia |].
  simpl obind. flow_simpl. rewrite Hfc. fold c. rewrite Hc64.
  cbn [ReceiveData DefaultFlowControl]. fold W. rewrite Hdelta.
  destruct (Z.ltb_spec c (W / 2)) as [Hlt | Hge].
  - destruct (Z.eqb_spec (W - c) 0) as [H0 | _]; [lia |].
    unfold send. flow_simpl. rewrite Hq. simpl obind. flow_simpl.
    rewrite (int64_id (W - c)) by (unfold is_int64; unfold c; lia).
    replace (c + (W - c)) with W by lia.
    rewrite (int64_id W) by (unfold is_int64; lia).
    eexists. split; [reflexivity |]. flow_simpl.
    repeat apply conj; try lia. split; reflexivity.
  - simpl. eexists. split; [reflexivity |]. flow_simpl.
    repeat apply conj; try (unfold c; lia).
    + intros _. split; [exact Hq | reflexivity].
Qed.

Lemma Receive_default_policy_witness :
  exists f',
    Receive [Byte.x01; Byte.x02; Byte.x03]
      (set_flowControl' (Some (DefaultFlowControl 8)) (receiving 5)) = Done f' /\
    8 / 2 <= transferWindowThere f' <= 8 /\
    output f'
    = Some [windowUpdateFrameV3
              (streamID (set_flowControl' (Some (DefaultFlowControl 8))
                           (receiving 5)))
              6] /\
    transferWindowThere f' = 8.
Proof.
  destruct (Receive_default_policy [Byte.x01; Byte.x02; Byte.x03]
              (set_flowControl' (Some (DefaultFlowControl 8)) (receiving 5))
              [] 8) as (f' & H1 & H2 & _ & H4).
  - reflexivity.
  - reflexivity.
  - unfold is_uint32. simpl. lia.
  - simpl. lia.
  - vm_compute. reflexivity.
  - exists f'. split; [exact H1 |]. split; [exact H2 |].
    apply H4. vm_compute. reflexivity.
Defined.

End ReceiveBehaviour.

(** ** What the sending side puts on the channel *)

Section SendingSide.

Import Flow Sample FlowView.

Ltac flow_simpl :=
  cbn [stream streamID output initialWindow transferWindow sent buffer
       constrained initialWindowThere transferWindowThere flowControl'
       set_stream set_streamID set_output set_initialWindow
       set_transferWindow set_sent set_buffer set_constrained
       set_initialWindowThere set_transferWindowThere set_flowControl'].

Lemma sends_data_refl (q : list Frame) (f f' : flowControl) :
  output f' = Some q -> streamID f' = streamID f ->
  transferWindowThere f' = transferWindowThere f -> sends_data q f f'.
Proof.
  intros Ho Hid Hw. exists []. rewrite app_nil_r.
  repeat apply conj; try assumption. constructor.
Qed.

Lemma sends_data_step (q : list Frame) (f f1 f2 : flowControl) (d : list byte) :
  sends_data q f f1 ->
  output f2 = (fun o => o ++ [dataFrameV3 (streamID f) d]) <$> output f1 ->
  streamID f2 = streamID f1 ->
  transferWindowThere f2 = transferWindowThere f1 -> sends_data q f f2.
Proof.
  intros (frs & Ho & Hall & Hid & Hw) Ho2 Hid2 Hw2.
  exists (frs ++ [dataFrameV3 (streamID f) d]).
  rewrite Ho2, Ho. simpl. rewrite app_assoc.
  repeat apply conj; try congruence.
  apply Forall_app. split; [exact Hall |]. repeat constructor. eauto.
Qed.

Lemma Flush_sends_data (f f' : flowControl) (q : list Frame) :
  output f = Some q -> Flush f = Done f' -> sends_data q f f'.
Proof.
  intros Hq. destruct (CheckInitialWindow_keeps f)
    as (_ & Hid & Hout & _ & _ & _ & Hw & _).
  unfold Flush. set (f0 := CheckInitialWindow f) in *.
  assert (H0 : sends_data q f f0)
    by (apply sends_data_refl; congruence).
  destruct (negb (constrained f0) || (transferWindow f0 =? 0));
    [intros [= <-]; exact H0 |].
  destruct (transferWindow f0 <? 0); [discriminate |].
  destruct (Flush_loop _ _ _ _ _) as [[[buf1 out] left1] |]; [| discriminate].
  cbv zeta. unfold send.
  destruct (_ >? 0); flow_simpl; rewrite Hout, Hq; intros [= <-];
    apply (sends_data_step q f f0 _ out H0); flow_simpl;
    rewrite ?Hout, ?Hq, ?Hid; reflexivity.
Qed.

Lemma Write_sends_data
    (data : list byte) (f f' : flowControl) (q : list Frame)
    (r : Z * option string) :
  output f = Some q -> Write data f = Done (f', r) -> sends_data q f f'.
Proof.
  intros Hq. unfold Write.
  assert (Hf : sends_data q f f) by (apply sends_data_refl; auto).
  destruct (len data =? 0); [intros [= <- _]; exact Hf |].
  destruct (buffer f); [| intros [= <- _]; exact Hf].
  destruct (stream f); [| intros [= <- _]; exact Hf].
  cbv zeta.
  destruct (CheckInitialWindow_keeps f)
    as (_ & Hid & Hout & _ & _ & _ & Hw & _).
  set (f0 := CheckInitialWindow f) in *.
  assert (H0 : sends_data q f f0) by (apply sends_data_refl; congruence).
  assert (Hpre : forall f1,
            (if constrained f0 then Flush f0 else Done f0) = Done f1 ->
            sends_data q f f1).
  { intros f1. destruct (constrained f0); [| intros [= <-]; exact H0].
    intros HF. apply Flush_sends_data with (q := q) in HF; [| congruence].
    destruct HF as (frs & Ho & Hall & Hid1 & Hw1).
    exists frs. rewrite <- Hid. repeat apply conj; try congruence. }
  destruct (if constrained f0 then Flush f0 else Done f0) as [f1 | | |];
    simpl; try discriminate.
  specialize (Hpre f1 eq_refl).
  assert (Hsame : forall f2,
            output f2 = output f1 -> streamID f2 = streamID f1 ->
            transferWindowThere f2 = transferWindowThere f1 ->
            sends_data q f f2).
  { intros f2 Ho2 Hid2 Hw2. destruct Hpre as (frs & Ho & Hall & Hid1 & Hw1).
    exists frs. repeat apply conj; congruence. }
  destruct (uint32 (len data) >? window_of f1).
  - destruct (len (take _ data) =? 0).
    + intros [= <- _]. apply Hsame; reflexivity.
    + unfold send. flow_simpl.
      destruct Hpre as (frs & Ho & Hall & Hid1 & Hw1).
      rewrite Ho. simpl. intros [= <- _].
      exists (frs ++ [dataFrameV3 (streamID f)
                        (take (Z.to_nat (window_of f1)) data)]).
      flow_simpl. rewrite Hid1, app_assoc.
      repeat apply conj; try congruence.
      apply Forall_app. split; [exact Hall |]. repeat constructor. eauto.
  - destruct (len data =? 0); [intros [= <- _]; exact Hpre |].
    unfold send.
    destruct Hpre as (frs & Ho & Hall & Hid1 & Hw1).
    rewrite Ho. simpl. intros [= <- _].
    exists (frs ++ [dataFrameV3 (streamID f) data]).
    flow_simpl. rewrite Hid1, app_assoc.
    repeat apply conj; try congruence.
    apply Forall_app. split; [exact Hall |]. repeat constructor. eauto.
Qed.

Lemma UpdateWindow_sends_data
    (delta : Z) (f f' : flowControl) (q : list Frame) (e : option string) :
  output f = Some q -> UpdateWindow delta f = Done (f', e) -> sends_data q f f'.
Proof.
  intros Hq. unfold UpdateWindow.
  destruct (_ >? MAX_TRANSFER_WINDOW_SIZE).
  - intros [= <- _]. apply sends_data_refl; auto.
  - cbv zeta.
    destruct (Flush _) as [f1 | | |] eqn:HF; simpl; try discriminate.
    intros [= <- _].
    apply Flush_sends_data with (q := q) in HF; [exact HF | exact Hq].
Qed.

(** X25.  Whatever [Flush], [Write] and [UpdateWindow] do, the frames
    already on the output channel stay, in order, and what is added is DATA
    frames carrying the stream's own id and nothing else; the stream id and
    the receive window are not touched. *)
Theorem sending_side_sends_data (f : flowControl) (q : list Frame) :
  output f = Some q ->
  (forall f', Flush f = Done f' -> sends_data q f f') /\
  (forall data f' r, Write data f = Done (f', r) -> sends_data q f f') /\
  (forall delta f' e, UpdateWindow delta f = Done (f', e) -> sends_data q f f').
Proof.
  intros Hq. repeat apply conj.
  - intros f'. apply Flush_sends_data, Hq.
  - intros data f' r. apply Write_sends_data, Hq.
  - intros delta f' e. apply UpdateWindow_sends_data, Hq.
Qed.

Lemma sending_side_sends_data_witness :
  sends_data [] (stalled 2 [[Byte.x01; Byte.x02; Byte.x03]])
    (set_output (Some ([] ++ [dataFrameV3 1 [Byte.x01; Byte.x02]]))
       (set_transferWindow 0
          (set_buffer (Some [[Byte.x03]])
             (stalled 2 [[Byte.x01; Byte.x02; Byte.x03]])))).
Proof.
  destruct (sending_side_sends_data
              (stalled 2 [[Byte.x01; Byte.x02; Byte.x03]]) []) as (H & _);
    [reflexivity |].
  apply H. vm_compute. reflexivity.
Defined.

End SendingSide.

(** ** A write, then a window update *)

Section WriteThenUpdate.

Import Flow Sample FlowView.

Ltac flow_simpl :=
  cbn [stream streamID output initialWindow transferWindow sent buffer
       constrained initialWindowThere transferWindowThere flowControl'
       set_stream set_streamID set_output set_initialWindow
       set_transferWindow set_sent set_buffer set_constrained
       set_initialWindowThere set_transferWindowThere set_flowControl'].

Lemma settled_same (f g : flowControl) :
  stream g = stream f -> initialWindow g = initialWindow f ->
  settled f -> settled g.
Proof.
  unfold settled, conn_window. intros -> -> H. exact H.
Qed.

(** A stalled stream with one chunk buffered gets [delta] bytes of window:
    the longest prefix of the chunk that fits is sent. *)
Lemma UpdateWindow_single_chunk
    (f : flowControl) (chunk : list byte) (q : list Frame) (delta : Z) :
  settled f -> constrained f = true -> transferWindow f = 0 ->
  buffer f = Some [chunk] -> output f = Some q ->
  0 < delta <= MAX_TRANSFER_WINDOW_SIZE ->
  exists f',
    UpdateWindow delta f = Done (f', None) /\
    output f'
    = Some (q ++ [dataFrameV3 (streamID f) (take (Z.to_nat delta) chunk)]) /\
    buffered f' = drop (Z.to_nat delta) chunk /\
    constrained f' = negb (len chunk <? delta).
Proof.
  intros Hs Hcon Htw Hb Hq Hd. unfold MAX_TRANSFER_WINDOW_SIZE in Hd.
  assert (Hd64 : int64 delta = delta) by (apply int64_id; unfold is_int64; lia).
  unfold UpdateWindow. rewrite Htw, Hd64, Z.add_0_r, Z.add_0_l, Hd64.
  unfold MAX_TRANSFER_WINDOW_SIZE.
  destruct (Z.gtb_spec delta 0x80000000) as [Hgt | _]; [lia |].
  cbv zeta.
  pose proof (Flush_single_chunk (set_transferWindow delta f) chunk q) as HF.
  cbv zeta in HF.
  cbn [transferWindow constrained buffer output streamID set_transferWindow]
    in HF.
  rewrite HF; clear HF; try assumption; try lia.
  - simpl obind. eexists. split; [reflexivity |].
    set (out := take (Z.to_nat delta) chunk).
    assert (Hlen : len out = Z.min (len chunk) delta)
      by (unfold len, out; rewrite length_take; lia).
    unfold buffered.
    destruct (Z.leb_spec (len chunk) delta) as [Hle | Hgt];
      destruct (Z.gtb_spec (delta - len out) 0) as [Hw | Hw];
      flow_simpl; simpl; rewrite ?app_nil_r;
      repeat apply conj; try reflexivity; try lia;
      first [ symmetry; apply drop_ge; unfold len in *; lia
            | rewrite ?Hcon;
              destruct (Z.ltb_spec (len chunk) delta);
              first [reflexivity | lia] ].
  - apply CheckInitialWindow_settled.
    apply (settled_same f); [reflexivity | reflexivity | exact Hs].
  - unfold is_int64. lia.
Qed.

Lemma Write_then_UpdateWindow_settled
    (data : list byte) (f : flowControl) (st : Stream) (q : list Frame)
    (delta : Z) :
  settled f -> constrained f = false ->
  buffer f = Some [] -> stream f = Some st -> output f = Some q ->
  0 <= transferWindow f < len data -> is_uint32 (len data) ->
  0 < delta <= MAX_TRANSFER_WINDOW_SIZE ->
  exists f1 f2 frs,
    Write data f = Done (f1, (len data, None)) /\
    UpdateWindow delta f1 = Done (f2, None) /\
    output f2 = Some (q ++ frs) /\
    data_sent frs = take (Z.to_nat (transferWindow f + delta)) data /\
    buffered f2 = drop (Z.to_nat (transferWindow f + delta)) data /\
    data_sent frs ++ buffered f2 = data /\
    constrained f2 = negb (len data <? transferWindow f + delta).
Proof.
  intros Hs Hcon Hb Hst Hq Hwin Hlen Hd.
  set (W := transferWindow f) in *.
  unfold is_uint32 in Hlen.
  assert (HWof : window_of f = W).
  { unfold window_of. fold W.
    destruct (Z.ltb_spec W 0); [lia |].
    apply uint32_id. unfold is_uint32. lia. }
  pose proof (Write_exceeds data f [] st q Hb Hst Hq
                (CheckInitialWindow_settled f Hs) Hcon) as HW.
  cbv zeta in HW. rewrite HWof in HW.
  specialize (HW ltac:(unfold is_uint32; lia) ltac:(lia)).
  fold W in HW.
  assert (Hzero : int64 (W - int64 W) = 0).
  { rewrite (int64_id W) by (unfold is_int64; lia).
    replace (W - W) with 0 by lia. reflexivity. }
  rewrite Hzero in HW. simpl app in HW.
  set (rest := drop (Z.to_nat W) data) in *.
  set (f1' := set_constrained true
                (set_transferWindow 0
                   (set_sent (uint32 (sent f + W))
                      (set_buffer (Some [rest]) f)))) in *.
  assert (Hs1 : settled f1')
    by (apply (settled_same f); [reflexivity | reflexivity | exact Hs]).
  assert (Hrest : len rest = len data - W).
  { unfold len, rest. rewrite length_drop. unfold len in *. lia. }
  assert (Hsplit : Z.to_nat (W + delta) = (Z.to_nat W + Z.to_nat delta)%nat)
    by lia.
  assert (Hdata : take (Z.to_nat W) data ++ take (Z.to_nat delta) rest
                  = take (Z.to_nat (W + delta)) data).
  { rewrite Hsplit. unfold rest. apply take_take_drop. }
  assert (Hbuf : drop (Z.to_nat delta) rest = drop (Z.to_nat (W + delta)) data).
  { rewrite Hsplit. unfold rest. apply drop_drop. }
  assert (Hcon2 : negb (len rest <? delta) = negb (len data <? W + delta)).
  { rewrite Hrest.
    destruct (Z.ltb_spec (len data - W) delta);
      destruct (Z.ltb_spec (len data) (W + delta)); (reflexivity || lia). }
  destruct (Z.eqb_spec W 0) as [H0 | Hn0].
  - destruct (UpdateWindow_single_chunk f1' rest q delta)
      as (f2 & HU & Ho2 & Hb2 & Hc2); try reflexivity; try assumption.
    exists f1', f2, [dataFrameV3 (streamID f) (take (Z.to_nat delta) rest)].
    assert (Hsent : data_sent [dataFrameV3 (streamID f) (take (Z.to_nat delta) rest)]
                    = take (Z.to_nat (W + delta)) data).
    { unfold data_sent. simpl. rewrite app_nil_r, <- Hdata, H0. reflexivity. }
    split; [exact HW |]. split; [exact HU |]. split; [exact Ho2 |].
    split; [exact Hsent |]. split; [rewrite Hb2; exact Hbuf |].
    split; [rewrite Hsent, Hb2, Hbuf; apply take_drop |].
    rewrite Hc2. exact Hcon2.
  - destruct (UpdateWindow_single_chunk
                (set_output
                   (Some (q ++ [dataFrameV3 (streamID f) (take (Z.to_nat W) data)]))
                   f1')
                rest
                (q ++ [dataFrameV3 (streamID f) (take (Z.to_nat W) data)])
                delta)
      as (f2 & HU & Ho2 & Hb2 & Hc2); try reflexivity; try assumption;
      try (apply (settled_same f1'); [reflexivity | reflexivity | exact Hs1]).
    eexists. exists f2,
      [dataFrameV3 (streamID f) (take (Z.to_nat W) data);
       dataFrameV3 (streamID f) (take (Z.to_nat delta) rest)].
    assert (Hsent : data_sent
                      [dataFrameV3 (streamID f) (take (Z.to_nat W) data);
                       dataFrameV3 (streamID f) (take (Z.to_nat delta) rest)]
                    = take (Z.to_nat (W + delta)) data).
    { unfold data_sent. simpl. rewrite app_nil_r. exact Hdata. }
    split; [exact HW |]. split; [exact HU |].
    split; [rewrite Ho2, <- app_assoc; reflexivity |].
    split; [exact Hsent |]. split; [rewrite Hb2; exact Hbuf |].
    split; [rewrite Hsent, Hb2, Hbuf; apply take_drop |].
    rewrite Hc2. exact Hcon2.
Qed.

(** X22.  Let [f0] be the state [CheckInitialWindow] makes of [f], with
    which [Write] starts, and [w] its window.  If the stream and the output
    channel are not [nil], the buffer is empty, [f0] is not constrained,
    the data written is longer than [w] (and [0 <= w]), and the peer then
    grants [delta] bytes with [0 < delta <= 2^31], then both calls succeed;
    together they send the first [w + delta] bytes of the slice, in order,
    and the rest of it is what is left in the buffer; the stream is
    constrained afterwards unless the slice is shorter than [w + delta]. *)
Theorem Write_then_UpdateWindow_in_order
    (data : list byte) (f : flowControl) (st : Stream) (q : list Frame)
    (delta : Z) :
  constrained (CheckInitialWindow f) = false ->
  buffer f = Some [] -> stream f = Some st -> output f = Some q ->
  0 <= transferWindow (CheckInitialWindow f) < len data ->
  is_uint32 (len data) ->
  0 < delta <= MAX_TRANSFER_WINDOW_SIZE ->
  exists f1 f2 frs,
    Write data f = Done (f1, (len data, None)) /\
    UpdateWindow delta f1 = Done (f2, None) /\
    output f2 = Some (q ++ frs) /\
    data_sent frs
    = take (Z.to_nat (transferWindow (CheckInitialWindow f) + delta)) data /\
    buffered f2
    = drop (Z.to_nat (transferWindow (CheckInitialWindow f) + delta)) data /\
    data_sent frs ++ buffered f2 = data /\
    constrained f2
    = negb (len data <? transferWindow (CheckInitialWindow f) + delta).
Proof.
  intros Hcon Hb Hst Hq Hwin Hlen Hd.
  destruct (CheckInitialWindow_keeps f) as (Hst0 & _ & Hout & _ & Hb0 & _).
  assert (Hne : data <> []).
  { intros ->. unfold len in Hwin. simpl in Hwin. lia. }
  rewrite <- Write_after_check by (try exact Hne; rewrite ?Hb, ?Hst; eauto).
  apply (Write_then_UpdateWindow_settled data (CheckInitialWindow f) st q delta);
    try assumption.
  - apply CheckInitialWindow_is_settled.
  - rewrite Hb0. exact Hb.
  - rewrite Hst0. exact Hst.
  - rewrite Hout. exact Hq.
Qed.

Lemma Write_then_UpdateWindow_in_order_witness :
  exists f1 f2 frs,
    Write [Byte.x01; Byte.x02; Byte.x03; Byte.x04; Byte.x05]
      (set_stream (Some {| Stream_Conn := Some (conn_with 65537) |})
         (set_constrained false (stalled 1 []))) = Done (f1, (5, None)) /\
    UpdateWindow 1 f1 = Done (f2, None) /\
    output f2 = Some ([] ++ frs) /\
    data_sent frs = [Byte.x01; Byte.x02; Byte.x03] /\
    buffered f2 = [Byte.x04; Byte.x05] /\
    constrained f2 = true.
Proof.
  destruct (Write_then_UpdateWindow_in_order
              [Byte.x01; Byte.x02; Byte.x03; Byte.x04; Byte.x05]
              (set_stream (Some {| Stream_Conn := Some (conn_with 65537) |})
                 (set_constrained false (stalled 1 [])))
              {| Stream_Conn := Some (conn_with 65537) |} [] 1)
    as (f1 & f2 & frs & H1 & H2 & H3 & H4 & H5 & _ & H7).
  - reflexivity.
  - reflexivity.
  - reflexivity.
  - reflexivity.
  - vm_compute. split; [discriminate | reflexivity].
  - unfold is_uint32. vm_compute. split; [discriminate | reflexivity].
  - unfold MAX_TRANSFER_WINDOW_SIZE. lia.
  - exists f1, f2, frs. repeat apply conj; assumption.
Defined.

End WriteThenUpdate.

(** ** A window update on a stream that is not constrained *)

Section IdleUpdate.

Import Flow Sample FlowView.

(** X27.  Let [g] be the state [CheckInitialWindow] makes of the state
    with [delta] added to [transferWindow].  If the sum does not go above
    [MAX_TRANSFER_WINDOW_SIZE] and [g] is not constrained, then
    [UpdateWindow(delta)] returns [nil] and leaves [g]: it sends nothing and
    leaves the buffer as it is, whatever is in it.  If the flow control
    already has the connection's initial window, [g] is the state the call
    was made on with [delta] added to [transferWindow] and no other
    change. *)
Theorem UpdateWindow_not_constrained (delta : Z) (f : flowControl) :
  is_uint32 delta -> is_int64 (transferWindow f) ->
  delta + transferWindow f <= MAX_TRANSFER_WINDOW_SIZE ->
  constrained
    (CheckInitialWindow (set_transferWindow (transferWindow f + delta) f))
  = false ->
  UpdateWindow delta f
  = Done (CheckInitialWindow
            (set_transferWindow (transferWindow f + delta) f), None) /\
  output (CheckInitialWindow
            (set_transferWindow (transferWindow f + delta) f)) = output f /\
  buffer (CheckInitialWindow
            (set_transferWindow (transferWindow f + delta) f)) = buffer f /\
  (settled f ->
     CheckInitialWindow (set_transferWindow (transferWindow f + delta) f)
     = set_transferWindow (transferWindow f + delta) f).
Proof.
  intros Hd H64 Hsum Hcon. unfold MAX_TRANSFER_WINDOW_SIZE in Hsum.
  destruct (CheckInitialWindow_keeps
              (set_transferWindow (transferWindow f + delta) f))
    as (_ & _ & Hout & _ & Hb & _).
  repeat apply conj.
  - unfold UpdateWindow, MAX_TRANSFER_WINDOW_SIZE.
    rewrite (int64_id delta) by (apply uint32_is_int64, Hd).
    unfold is_uint32, is_int64 in *.
    rewrite (int64_id (delta + transferWindow f)) by (unfold is_int64; lia).
    rewrite (int64_id (transferWindow f + delta)) by (unfold is_int64; lia).
    destruct (Z.gtb_spec (delta + transferWindow f) 0x80000000) as [Hgt | _];
      [lia |].
    cbv zeta. unfold Flush. rewrite Hcon. reflexivity.
  - exact Hout.
  - exact Hb.
  - intros Hs. apply CheckInitialWindow_settled.
    apply (settled_same f); [reflexivity | reflexivity | exact Hs].
Qed.

Lemma UpdateWindow_not_constrained_witness :
  UpdateWindow 5
    (set_stream (Some {| Stream_Conn := Some (conn_with 65546) |})
       (set_constrained false (stalled 10 [[Byte.x01]])))
  = Done (set_initialWindow 65546
            (set_transferWindow 25
               (set_stream (Some {| Stream_Conn := Some (conn_with 65546) |})
                  (set_constrained false (stalled 10 [[Byte.x01]])))), None).
Proof.
  apply (UpdateWindow_not_constrained 5
           (set_stream (Some {| Stream_Conn := Some (conn_with 65546) |})
              (set_constrained false (stalled 10 [[Byte.x01]])))).
  - unfold is_uint32. lia.
  - unfold is_int64. simpl. lia.
  - unfold MAX_TRANSFER_WINDOW_SIZE. simpl. lia.
  - reflexivity.
Defined.

End IdleUpdate.

(** ** AddSPDY and the advertised protocols *)

Section AdvertisedProtocols.

Import Server.

Lemma filter_is_other_spdy (l : list string) :
  Forall (fun p => is_other p = false) l -> List.filter is_other l = [].
Proof.
  induction 1 as [| p l Hp _ IH]; simpl; [reflexivity |].
  rewrite Hp. exact IH.
Qed.

Lemma filter_filter_is_other (l : list string) :
  List.filter is_other (List.filter is_other l) = List.filter is_other l.
Proof.
  induction l as [| p l IH]; simpl; [reflexivity |].
  destruct (is_other p) eqn:Hp; simpl; rewrite ?Hp, IH; reflexivity.
Qed.

(** X28.  Where [AddSPDY] finds protocols already advertised and [npn()]
    returns more than one string, each of them naming spdy or http: the new
    list is the strings of [npn()] but the last, then the protocols already
    advertised that name neither spdy nor http, in their old order, then
    [http/1.1]; so those other protocols are all kept, and [http/1.1] comes
    last.  With one string or none from [npn()] the list is not touched. *)
Theorem AddSPDY_keeps_other_protocols (npnStrings old : list string) :
  (1 < length npnStrings)%nat ->
  Forall (fun p => is_other p = false) npnStrings ->
  exists new,
    AddSPDY_NextProtos npnStrings (Some old) = Some new /\
    List.filter is_other new = List.filter is_other old /\
    last new = Some "http/1.1" /\
    take (length npnStrings - 1) new = take (length npnStrings - 1) npnStrings /\
    (forall few, (length few <= 1)%nat ->
       AddSPDY_NextProtos few (Some old) = Some old) /\
    new = take (length npnStrings - 1) npnStrings
          ++ List.filter is_other old ++ ["http/1.1"].
Proof.
  intros Hlen Hall. unfold AddSPDY_NextProtos.
  destruct (Z.leb_spec (len npnStrings) 1) as [Hle | _];
    [unfold len in Hle; lia |].
  eexists. split; [reflexivity |].
  assert (Hinit : Forall (fun p => is_other p = false)
                    (take (length npnStrings - 1) npnStrings))
    by (apply Forall_take, Hall).
  repeat apply conj.
  - rewrite !List.filter_app, (filter_is_other_spdy _ Hinit),
      filter_filter_is_other.
    simpl. rewrite app_nil_r. reflexivity.
  - rewrite app_assoc. apply last_snoc.
  - apply take_app_length'. rewrite length_take. lia.
  - intros few Hfew.
    destruct (Z.leb_spec (len few) 1) as [_ | Hgt];
      [reflexivity | unfold len in Hgt; lia].
  - reflexivity.
Qed.

Lemma AddSPDY_keeps_other_protocols_witness :
  exists new,
    AddSPDY_NextProtos ["spdy/3"; "spdy/2"; "http/1.1"]
      (Some ["h2c"; "http/1.0"; "spdy/1"; "webrtc"]) = Some new /\
    List.filter is_other new
    = List.filter is_other ["h2c"; "http/1.0"; "spdy/1"; "webrtc"] /\
    last new = Some "http/1.1" /\
    new = ["spdy/3"; "spdy/2"; "h2c"; "webrtc"; "http/1.1"].
Proof.
  destruct (AddSPDY_keeps_other_protocols ["spdy/3"; "spdy/2"; "http/1.1"]
              ["h2c"; "http/1.0"; "spdy/1"; "webrtc"])
    as (new & H1 & H2 & H3 & _ & _ & H6).
  - simpl. lia.
  - repeat constructor.
  - exists new. repeat apply conj; assumption.
Defined.

(** X29.  Calling [AddSPDY] a second time changes the advertised protocols
    no further, if [npn()] returns the same strings, each naming spdy or
    http, and, where nothing was advertised before, the last of them is
    [http/1.1]. *)
Theorem AddSPDY_NextProtos_idempotent
    (npnStrings : list string) (NextProtos : option (list string)) :
  Forall (fun p => is_other p = false) npnStrings ->
  (NextProtos = None -> (1 < length npnStrings)%nat ->
     last npnStrings = Some "http/1.1") ->
  AddSPDY_NextProtos npnStrings (AddSPDY_NextProtos npnStrings NextProtos)
  = AddSPDY_NextProtos npnStrings NextProtos.
Proof.
  intros Hall Hlast. unfold AddSPDY_NextProtos.
  destruct (Z.leb_spec (len npnStrings) 1) as [Hle | Hgt]; [reflexivity |].
  unfold len in Hgt.
  assert (Hinit : Forall (fun p => is_other p = false)
                    (take (length npnStrings - 1) npnStrings))
    by (apply Forall_take, Hall).
  destruct NextProtos as [old |].
  - cbv zeta. f_equal. f_equal.
    rewrite !List.filter_app, (filter_is_other_spdy _ Hinit),
      filter_filter_is_other.
    simpl. rewrite app_nil_r. reflexivity.
  - cbv zeta. rewrite (filter_is_other_spdy _ Hall). simpl. f_equal.
    specialize (Hlast eq_refl ltac:(lia)).
    destruct (decide (npnStrings = [])) as [-> | Hne]; [discriminate |].
    destruct (exists_last Hne) as (init & x & ->).
    rewrite last_snoc in Hlast. injection Hlast as ->.
    rewrite length_app. simpl.
    replace (length init + 1 - 1)%nat with (length init) by lia.
    rewrite take_app_length. reflexivity.
Qed.

Lemma AddSPDY_NextProtos_idempotent_witness :
  AddSPDY_NextProtos ["spdy/3"; "spdy/2"; "http/1.1"]
    (AddSPDY_NextProtos ["spdy/3"; "spdy/2"; "http/1.1"] None)
  = AddSPDY_NextProtos ["spdy/3"; "spdy/2"; "http/1.1"] None.
Proof.
  apply (AddSPDY_NextProtos_idempotent ["spdy/3"; "spdy/2"; "http/1.1"] None).
  - repeat constructor.
  - intros _ _. reflexivity.
Defined.

End AdvertisedProtocols.

(** ** strings.Contains *)

Section Substrings.

Import Server.

Lemma append_cons (c : Ascii.ascii) (a b : string) :
  String.append (String c a) b = String c (String.append a b).
Proof. reflexivity. Qed.

Lemma prefix_append (p s : string) :
  String.prefix p s = true <-> exists b, s = String.append p b.
Proof.
  revert s. induction p as [| c p IH]; intros s.
  - split; [intros _; exists s; reflexivity | destruct s; reflexivity].
  - destruct s as [| c' s]; simpl.
    + split; [discriminate |]. intros [b Hb].
      rewrite append_cons in Hb. discriminate Hb.
    + destruct (Ascii.ascii_dec c c') as [-> | Hne].
      * rewrite IH. split; intros [b Hb]; exists b.
        -- rewrite append_cons, Hb. reflexivity.
        -- rewrite append_cons in Hb. congruence.
      * split; [discriminate |]. intros [b Hb].
        rewrite append_cons in Hb. congruence.
Qed.

(** [Contains s substr] holds exactly if [substr] occurs in [s]. *)
Lemma Contains_occurs (s substr : string) :
  Contains s substr = true
  <-> exists a b, s = String.append a (String.append substr b).
Proof.
  induction s as [| c s IH].
  - change (Contains EmptyString substr)
      with (String.prefix substr EmptyString || false).
    rewrite orb_false_r, prefix_append. split.
    + intros [b Hb]. exists EmptyString, b. exact Hb.
    + intros (a & b & Hab). destruct a as [| c' a].
      * exists b. exact Hab.
      * rewrite append_cons in Hab. discriminate Hab.
  - change (Contains (String c s) substr)
      with (String.prefix substr (String c s) || Contains s substr).
    rewrite orb_true_iff, prefix_append, IH. split.
    + intros [[b Hb] | (a & b & Hab)].
      * exists EmptyString, b. exact Hb.
      * exists (String c a), b. rewrite append_cons, Hab. reflexivity.
    + intros (a & b & Hab). destruct a as [| c' a].
      * left. exists b. exact Hab.
      * right. exists a, b. rewrite append_cons in Hab. congruence.
Qed.

End Substrings.
